(** * assistant_agent: the orchestration layer, embedded and verified

    A shallow embedding of the parts of the agent that its design
    document makes promises about:

    - [Executor]      internal/executor/executor.go
    - [PluginManager] internal/plugin (manager, types, errors)
    - [StateStore]    internal/state/manager.go
    - [Updater]       internal/plugin/updater (version comparison)
    - [Scheduler]     internal/plugin/scheduler (task bookkeeping)

    Go strings are byte strings, so they are [string]; Go maps are
    [gmap]s; [int], [int64] and [time.Duration] are [Z] with the
    wrap-around written out where the code multiplies or subtracts.
    Everything the operating system decides (file creation, process
    exit, the clock) is an oracle, and in the executor every call the
    code makes to it is appended to a trace, so that "no process was
    spawned" is a statement about that trace. The registry's mutex is
    part of its state: two of its methods ask for the mutex again while
    they hold it, and what that does is part of what they do. Logging
    is left out throughout. *)

From Stdlib Require Import ZArith List String Ascii Bool Lia.
From stdpp Require Import base option gmap strings list.
Import ListNotations.

#[local] Set Warnings "-register-all".

Local Open Scope string_scope.
Local Open Scope list_scope.
Local Open Scope Z_scope.

(** ** A state monad for code that threads a world through its calls *)

Module St.
Definition M (S A : Type) : Type := S -> A * S.

Definition ret {S A} (a : A) : M S A := fun s => (a, s).

Definition bind {S A B} (m : M S A) (k : A -> M S B) : M S B :=
  fun s => let (a, s') := m s in k a s'.

Definition get {S} : M S S := fun s => (s, s).
Definition modify {S} (f : S -> S) : M S unit := fun s => (tt, f s).
End St.

Declare Scope st_scope.
Delimit Scope st_scope with st.
Notation "'let*' x ':=' m 'in' k" := (St.bind m (fun x => k))
  (at level 10, x name, m at level 100, k at level 200, only parsing) : st_scope.

(** Two's-complement wrap-around of a 64-bit signed integer. *)
Definition wrap64 (z : Z) : Z := (z + 2^63) mod 2^64 - 2^63.

Definition maxInt64 : Z := 2^63 - 1.
Definition minInt64 : Z := - 2^63.

(** [time.Second] and [time.Minute], in nanoseconds. *)
Definition Second : Z := 1000000000.
Definition Minute : Z := 60 * Second.

(** ** internal/executor *)

Module Executor.

Definition CommandTypeShell : string := "shell".
Definition CommandTypePowerShell : string := "powershell".
Definition CommandTypeContainer : string := "container".

Record Command := {
  ID : string;
  Type_ : string;
  Script : string;
  Args : list string;
  WorkingDir : string;
  Timeout : Z;
  ContainerID : string;
  User : string;
  Env : list string
}.

(** [Duration] is kept in nanoseconds; the source converts it to
    seconds as a float. *)
Record Result := {
  RID : string;
  Success : bool;
  ExitCode : Z;
  Output : string;
  Error : string;
  StartTime : Z;
  EndTime : Z;
  Duration : Z
}.

(** An [exec.Cmd]: what os/exec is handed when the process starts.
    [CEnv = None] is Go's nil slice, for which os/exec documents that
    the new process uses the current process's environment.
    [Deadline] is the context's timeout, if the Cmd was built by
    [exec.CommandContext] under [context.WithTimeout]. *)
Record Cmd := {
  Path : string;
  CArgs : list string;
  CEnv : option (list string);
  Dir : string;
  Deadline : option Z
}.

(** What [CombinedOutput] gives back: the bytes, the error, and the
    exit code when [ProcessState] is not nil. *)
Record Exit := {
  out : string;
  err : option string;
  state : option Z
}.

(** Every call that leaves the process. *)
Inductive Event :=
| EvNow
| EvCreateTemp (dir pattern : string)
| EvWriteString (path content : string)
| EvClose (path : string)
| EvChmod (path : string)
| EvRemove (path : string)
| EvRun (c : Cmd)
| EvKill (pid : nat).

Definition World := list Event.

(** The host's answers; each may depend on everything done so far. *)
Record Host := {
  environ : list string;
  now : World -> Z;
  createTemp : World -> string -> string -> string + string;
  writeString : World -> string -> string -> option string;
  chmod : World -> string -> option string;
  lookPath : string -> string;
  combinedOutput : World -> Cmd -> Exit;
  kill : World -> nat -> option string
}.

(** A started command held in the registry: [Process] is nil until the
    process exists. The executor's mutex is left out: [Stop],
    [StopCommand] and [ListRunningCommands] take it on entry, release it
    on return and call nothing that takes it. *)
Record Running := { Process : option nat }.

Record Executor := {
  workDir : string;
  tempDir : string;
  running : gmap string Running
}.

Section WithHost.
Variable h : Host.

Local Open Scope st_scope.
Abbreviation M := (St.M World).

Definition emit (e : Event) : M unit := St.modify (fun w => w ++ [e]).

Definition timeNow : M Z :=
  let* w := St.get in let* _ := emit EvNow in St.ret (now h w).

Definition osCreateTemp (dir pattern : string) : M (string + string) :=
  let* w := St.get in let* _ := emit (EvCreateTemp dir pattern) in St.ret (createTemp h w dir pattern).

Definition ioWriteString (path content : string) : M (option string) :=
  let* w := St.get in let* _ := emit (EvWriteString path content) in St.ret (writeString h w path content).

Definition osChmod (path : string) : M (option string) :=
  let* w := St.get in let* _ := emit (EvChmod path) in St.ret (chmod h w path).

Definition osRemove (path : string) : M unit := emit (EvRemove path).
Definition fileClose (path : string) : M unit := emit (EvClose path).

Definition CombinedOutput (c : Cmd) : M Exit :=
  let* w := St.get in let* _ := emit (EvRun c) in St.ret (combinedOutput h w c).

Definition processKill (pid : nat) : M (option string) :=
  let* w := St.get in let* _ := emit (EvKill pid) in St.ret (kill h w pid).

(** [exec.Command(name, arg...)]. *)
Definition exec_Command (name : string) (arg : list string) : Cmd :=
  {| Path := lookPath h name; CArgs := name :: arg;
     CEnv := None; Dir := ""; Deadline := None |}.

(** [exec.CommandContext(ctx, name, arg...)] with [ctx] carrying a
    timeout of [d] nanoseconds. *)
Definition exec_CommandContext (d : Z) (name : string) (arg : list string) : Cmd :=
  {| Path := lookPath h name; CArgs := name :: arg;
     CEnv := None; Dir := ""; Deadline := Some d |}.

Definition setDir (d : string) (c : Cmd) : Cmd :=
  {| Path := Path c; CArgs := CArgs c; CEnv := CEnv c; Dir := d; Deadline := Deadline c |}.

Definition setEnv (e : list string) (c : Cmd) : Cmd :=
  {| Path := Path c; CArgs := CArgs c; CEnv := Some e; Dir := Dir c; Deadline := Deadline c |}.

(** [&Result{ID: cmd.ID, StartTime: time.Now()}]. *)
Definition newResult (cmd : Command) (t : Z) : Result :=
  {| RID := ID cmd; Success := false; ExitCode := 0; Output := "";
     Error := ""; StartTime := t; EndTime := 0; Duration := 0 |}.

(** [result.Success = false; result.Error = msg]. *)
Definition failed (r : Result) (msg : string) : Result :=
  {| RID := RID r; Success := false; ExitCode := ExitCode r; Output := Output r;
     Error := msg; StartTime := StartTime r; EndTime := EndTime r; Duration := Duration r |}.

(** The tail shared by the three surfaces: output captured, then the
    error/exit-code bookkeeping. *)
Definition finished (r : Result) (x : Exit) : Result :=
  match err x with
  | Some msg =>
      {| RID := RID r; Success := false;
         ExitCode := match state x with Some c => c | None => ExitCode r end;
         Output := out x; Error := msg;
         StartTime := StartTime r; EndTime := EndTime r; Duration := Duration r |}
  | None =>
      {| RID := RID r; Success := true; ExitCode := 0;
         Output := out x; Error := Error r;
         StartTime := StartTime r; EndTime := EndTime r; Duration := Duration r |}
  end.

Definition createScriptFile (e : Executor) (script ext : string) : M (string + string) :=
  let* r := osCreateTemp (tempDir e) ("script_*." +:+ ext) in
  match r with
  | inr msg => St.ret (inr msg)
  | inl name =>
      let* w := ioWriteString name script in
      match w with
      | Some msg => let* _ := osRemove name in let* _ := fileClose name in St.ret (inr msg)
      | None => let* _ := fileClose name in St.ret (inl name)
      end
  end.

(** The timeout block, identical on the three surfaces: when the
    timeout is positive the Cmd is REBUILT from its path and
    arguments alone. *)
Definition withTimeout (cmd : Command) (execCmd : Cmd) : Cmd :=
  if 0 <? Timeout cmd
  then exec_CommandContext (wrap64 (Timeout cmd * Second))
         (Path execCmd) (tail (CArgs execCmd))
  else execCmd.

Definition workingDirOf (e : Executor) (cmd : Command) : string :=
  if decide (WorkingDir cmd = "") then workDir e else WorkingDir cmd.

Definition executeShell (e : Executor) (cmd : Command) : M Result :=
  let* t := timeNow in
  let result := newResult cmd t in
  let* f := createScriptFile e (Script cmd) "sh" in
  match f with
  | inr msg => St.ret (failed result msg)
  | inl scriptFile =>
      let* c := osChmod scriptFile in
      match c with
      | Some msg => let* _ := osRemove scriptFile in St.ret (failed result msg)
      | None =>
          let execCmd := exec_Command "bash" [scriptFile] in
          let execCmd := setDir (workingDirOf e cmd) execCmd in
          let execCmd := setEnv (environ h ++ Env cmd) execCmd in
          let execCmd := withTimeout cmd execCmd in
          let* x := CombinedOutput execCmd in
          let* _ := osRemove scriptFile in
          St.ret (finished result x)
      end
  end.

Definition executePowerShell (e : Executor) (cmd : Command) : M Result :=
  let* t := timeNow in
  let result := newResult cmd t in
  let* f := createScriptFile e (Script cmd) "ps1" in
  match f with
  | inr msg => St.ret (failed result msg)
  | inl scriptFile =>
      let execCmd :=
        exec_Command "powershell" ["-ExecutionPolicy"; "Bypass"; "-File"; scriptFile] in
      let execCmd := setDir (workingDirOf e cmd) execCmd in
      let execCmd := setEnv (environ h ++ Env cmd) execCmd in
      let execCmd := withTimeout cmd execCmd in
      let* x := CombinedOutput execCmd in
      let* _ := osRemove scriptFile in
      St.ret (finished result x)
  end.

(** The [docker exec] argument vector. *)
Definition dockerArgs (cmd : Command) (scriptFile : string) : list string :=
  ["exec"]
  ++ (if decide (User cmd = "") then [] else ["-u"; User cmd])
  ++ (if decide (WorkingDir cmd = "") then [] else ["-w"; WorkingDir cmd])
  ++ flat_map (fun e => ["-e"; e]) (Env cmd)
  ++ [ContainerID cmd; "bash"; scriptFile].

Definition executeContainer (e : Executor) (cmd : Command) : M Result :=
  let* t := timeNow in
  let result := newResult cmd t in
  if decide (ContainerID cmd = "")
  then St.ret (failed result "container ID is required for container commands")
  else
    let* f := createScriptFile e (Script cmd) "sh" in
    match f with
    | inr msg => St.ret (failed result msg)
    | inl scriptFile =>
        let execCmd := exec_Command "docker" (dockerArgs cmd scriptFile) in
        let execCmd := withTimeout cmd execCmd in
        let* x := CombinedOutput execCmd in
        let* _ := osRemove scriptFile in
        St.ret (finished result x)
    end.

(** [result.EndTime = time.Now(); result.Duration = EndTime - StartTime].
    [Time.Sub] saturates at the ends of [int64]. *)
Definition saturate (d : Z) : Z := Z.max minInt64 (Z.min maxInt64 d).

Definition stamped (r : Result) (t : Z) : Result :=
  {| RID := RID r; Success := Success r; ExitCode := ExitCode r; Output := Output r;
     Error := Error r; StartTime := StartTime r; EndTime := t;
     Duration := saturate (t - StartTime r) |}.

Definition Execute (e : Executor) (cmd : Command) : M Result :=
  let* t := timeNow in
  let result := newResult cmd t in
  let* result :=
    (if decide (Type_ cmd = CommandTypeShell) then executeShell e cmd
     else if decide (Type_ cmd = CommandTypePowerShell) then executePowerShell e cmd
     else if decide (Type_ cmd = CommandTypeContainer) then executeContainer e cmd
     else St.ret (failed result ("unsupported command type: " +:+ Type_ cmd))) in
  let* t' := timeNow in
  St.ret (stamped result t').

(** [StopCommand]: on a kill error the entry stays in the registry. *)
Definition StopCommand (e : Executor) (id : string) : M (option string * Executor) :=
  match running e !! id with
  | Some cmd =>
      let* k := match Process cmd with
                | Some pid => processKill pid
                | None => St.ret None
                end in
      match k with
      | Some msg => St.ret (Some msg, e)
      | None =>
          St.ret (None, {| workDir := workDir e; tempDir := tempDir e;
                           running := delete id (running e) |})
      end
  | None => St.ret (None, e)
  end.

Definition ListRunningCommands (e : Executor) : list string :=
  (map_to_list (running e)).*1.

(** [Stop]: every command of the registry is killed, when it has a
    process, and forgotten. [ids] is the order in which [range] visits
    the registry; what [Kill] returns is dropped. *)
Fixpoint Stop (ids : list string) (e : Executor) : M Executor :=
  match ids with
  | [] => St.ret e
  | id :: rest =>
      match running e !! id with
      | Some cmd =>
          let* _ := match Process cmd with
                    | Some pid => processKill pid
                    | None => St.ret None
                    end in
          Stop rest {| workDir := workDir e; tempDir := tempDir e;
                       running := delete id (running e) |}
      | None => Stop rest e
      end
  end.

End WithHost.

(** The events a computation adds to the trace it starts from. *)
Definition events_of {A} (m : St.M World A) (w : World) : list Event :=
  drop (length w) (m w).2.

(** The processes a trace started, oldest first. *)
Definition spawned (w : World) : list Cmd :=
  flat_map (fun e => match e with EvRun c => [c] | _ => [] end) w.

(** The process a registered command would be killed through. *)
Definition pidOf (e : Executor) (id : string) : option nat :=
  running e !! id ≫= Process.

(** The processes a trace killed, oldest first. *)
Definition killed (w : World) : list nat :=
  flat_map (fun e => match e with EvKill pid => [pid] | _ => [] end) w.

(** The files a trace wrote a script to, and the files it removed. *)
Definition written (w : World) : list string :=
  flat_map (fun e => match e with EvWriteString p _ => [p] | _ => [] end) w.

Definition removed (w : World) : list string :=
  flat_map (fun e => match e with EvRemove p => [p] | _ => [] end) w.

(** The files a trace created. *)
Definition created (w : World) : list (string * string) :=
  flat_map (fun e => match e with EvCreateTemp d p => [(d, p)] | _ => [] end) w.

(** The environment the process behind a Cmd starts with. *)
Definition processEnv (h : Host) (c : Cmd) : list string :=
  match CEnv c with
  | Some e => e
  | None => environ h
  end.

Definition supported (cmd : Command) : Prop :=
  Type_ cmd = CommandTypeShell \/ Type_ cmd = CommandTypePowerShell
  \/ Type_ cmd = CommandTypeContainer.

(** The reading of the design under which env entries reach the
    process environment on all three surfaces. *)
Definition env_appended_on_every_surface : Prop :=
  forall (h : Host) (e : Executor) (cmd : Command) (w : World) (c : Cmd),
    supported cmd ->
    c ∈ spawned (events_of (Execute h e cmd) w) ->
    processEnv h c = environ h ++ Env cmd.

Fixpoint containsSlash (s : string) : bool :=
  match s with
  | EmptyString => false
  | String a rest => if Ascii.eqb a "/" then true else containsSlash rest
  end.

(** An executor with two commands in flight, one of which has no
    process yet. *)
Definition busyExecutor : Executor :=
  {| workDir := "/var/agent/work"; tempDir := "/tmp";
     running := {[ "c-7" := {| Process := Some 4711%nat |};
                   "c-8" := {| Process := None |} ]} |}.

(** A host on which everything succeeds: temporary files are created
    under a fixed name, every process exits with status 0 and prints
    nothing, the clock stands still. *)
Definition quietHost : Host :=
  {| environ := ["PATH=/usr/bin"; "HOME=/root"];
     now := fun _ => 0;
     createTemp := fun _ dir _ => inl (dir +:+ "/script_1");
     writeString := fun _ _ _ => None;
     chmod := fun _ _ => None;
     lookPath := fun name => if containsSlash name then name else "/usr/bin/" +:+ name;
     combinedOutput := fun _ _ => {| out := ""; err := None; state := Some 0 |};
     kill := fun _ _ => None |}.

Definition someExecutor : Executor :=
  {| workDir := "/var/agent/work"; tempDir := "/tmp"; running := ∅ |}.

(** A command of type [ty] printing a variable, with one env entry. *)
Definition printenvCommand (ty : string) (timeout : Z) : Command :=
  {| ID := "c-1"; Type_ := ty; Script := "printenv GREETING"; Args := [];
     WorkingDir := ""; Timeout := timeout; ContainerID := "web-1"; User := "";
     Env := ["GREETING=hello"] |}.

End Executor.

(** ** Values of type [interface{}] and Go errors *)

(** The dynamically typed values that travel in command arguments and
    results. *)
Inductive Value :=
| VNil
| VString (s : string)
| VBool (b : bool)
| VInt (z : Z)
| VFloat (bits : Z)
| VList (l : list Value)
| VMap (l : list (string * Value)).

(** An [error]: made by [errors.New] or [fmt.Errorf] without [%w], or
    wrapping another one through [%w]. *)
Inductive error :=
| ErrNew (msg : string)
| ErrWrap (msg : string) (cause : error).

(** [err.Error()]. *)
Definition errorText (e : error) : string :=
  match e with
  | ErrNew msg => msg
  | ErrWrap msg _ => msg
  end.

(** [fmt.Errorf(prefix + "%w", err)]. *)
Definition wrapf (prefix : string) (e : error) : error :=
  ErrWrap (prefix +:+ errorText e) e.

(** How [%v] prints a slice of errors: the messages between brackets,
    separated by one space. *)
Fixpoint joinSpace (l : list string) : string :=
  match l with
  | [] => ""
  | [x] => x
  | x :: rest => x +:+ " " +:+ joinSpace rest
  end.

Definition formatErrors (l : list error) : string :=
  "[" +:+ joinSpace (map errorText l) +:+ "]".

(** [time.Time{}], as nanoseconds from the Unix epoch. *)
Definition zeroTime : Z := -62135596800 * Second.

(** ** A state monad in which a call may never return

    [sync.RWMutex] is not reentrant: a goroutine that asks for a lock it
    cannot get is parked, and what follows in its code does not run.
    [Blocked] is that outcome, with the state at the point of parking. *)

Module Bk.
Inductive Outcome (S A : Type) : Type :=
| Done (a : A) (s : S)
| Blocked (s : S).
Arguments Done {S A} a s.
Arguments Blocked {S A} s.

Definition M (S A : Type) : Type := S -> Outcome S A.

Definition ret {S A} (a : A) : M S A := fun s => Done a s.

Definition bind {S A B} (m : M S A) (k : A -> M S B) : M S B :=
  fun s => match m s with
           | Done a s' => k a s'
           | Blocked s' => Blocked s'
           end.

Definition get {S} : M S S := fun s => Done s s.
Definition modify {S} (f : S -> S) : M S unit := fun s => Done tt (f s).

(** The state a call leaves behind, whether or not it returned. *)
Definition final {S A} (o : Outcome S A) : S :=
  match o with
  | Done _ s => s
  | Blocked s => s
  end.

Definition returned {S A} (o : Outcome S A) : option A :=
  match o with
  | Done a _ => Some a
  | Blocked _ => None
  end.
End Bk.

Declare Scope bk_scope.
Delimit Scope bk_scope with bk.
Notation "'let*' x ':=' m 'in' k" := (Bk.bind m (fun x => k))
  (at level 10, x name, m at level 100, k at level 200, only parsing) : bk_scope.

(** ** internal/plugin: the registry *)

Module PluginManager.

Definition ErrPluginNotFound : error := ErrNew "plugin not found".
Definition ErrPluginAlreadyExists : error := ErrNew "plugin already exists".
Definition ErrPluginFactoryNotFound : error := ErrNew "plugin factory not found".
Definition ErrInvalidPluginInfo : error := ErrNew "invalid plugin info".
Definition ErrPluginNotStarted : error := ErrNew "plugin not started".
Definition ErrPluginAlreadyStarted : error := ErrNew "plugin already started".

Record PluginInfo := {
  Name : string;
  Version : string;
  Description : string;
  Author : string;
  License : string;
  Homepage : string;
  Tags : list string;
  InfoConfig : gmap string string
}.

Record PluginStatus := {
  Status : string;
  StartTime : Z;
  StopTime : Z;
  Metrics : gmap string Value;
  LastError : string;
  LastUpdated : Z
}.

Record PluginContext := { pluginName : string }.

(** Addresses of [PluginStatus] objects. The registry holds a
    [*PluginStatus] per instance and [GetPluginStatus] may replace it
    by the pointer the plugin hands out, after which the plugin and
    the registry look at one object. *)
Definition loc := nat.

(** Everything plugin code can reach: the status objects and the
    plugins' own memory, of some type [P]. *)
Record Store (P : Type) := {
  objs : gmap loc PluginStatus;
  next : loc;
  priv : P
}.
Arguments objs {P} _.
Arguments next {P} _.
Arguments priv {P} _.

(** The [Plugin] interface. A method is what it does to the store and
    what it returns. [ptr] is the identity of the Go value behind the
    interface. [Info] is a constant: the design fixes a plugin's
    descriptor for the life of the process, and every plugin of the
    repository returns a literal. *)
Record Plugin (P : Type) := {
  ptr : nat;
  Info : option PluginInfo;
  Init : PluginContext -> Store P -> option error * Store P;
  Start : Store P -> option error * Store P;
  Stop : Store P -> option error * Store P;
  HandleCommand : string -> gmap string Value -> Store P -> (Value * option error) * Store P;
  HandleEvent : string -> gmap string Value -> Store P -> option error * Store P;
  PStatus : Store P -> option loc * Store P;
  Health : Store P -> option error * Store P;
  GetConfig : Store P -> option (gmap string Value) * Store P;
  SetConfig : gmap string Value -> Store P -> option error * Store P
}.
Arguments ptr {P} _.
Arguments Info {P} _.
Arguments Init {P} _ _ _.
Arguments Start {P} _ _.
Arguments Stop {P} _ _.
Arguments HandleCommand {P} _ _ _ _.
Arguments HandleEvent {P} _ _ _ _.
Arguments PStatus {P} _ _.
Arguments Health {P} _ _.
Arguments GetConfig {P} _ _.
Arguments SetConfig {P} _ _ _.

Record PluginInstance (P : Type) := {
  Plugin_ : Plugin P;
  Context : option PluginContext;
  Config : option (gmap string Value);
  InstStatus : loc;
  ConfigFile : string
}.
Arguments Plugin_ {P} _.
Arguments Context {P} _.
Arguments Config {P} _.
Arguments InstStatus {P} _.
Arguments ConfigFile {P} _.

(** A [sync.RWMutex] as one goroutine sees it. *)
Record RWMutex := { writer : bool; readers : nat }.

Definition unlocked : RWMutex := {| writer := false; readers := 0 |}.

(** The plugin methods the registry invoked, oldest first. *)
Inductive Call :=
| CallInit (p : nat) (ctx : PluginContext)
| CallStart (p : nat)
| CallStop (p : nat)
| CallHandleCommand (p : nat) (command : string) (args : gmap string Value)
| CallHandleEvent (p : nat) (eventType : string) (data : gmap string Value)
| CallStatus (p : nat)
| CallGetConfig (p : nat).

Record Manager (P : Type) := {
  dataDir : string;
  plugins : gmap string (PluginInstance P);
  mu : RWMutex;
  store : Store P;
  calls : list Call
}.
Arguments dataDir {P} _.
Arguments plugins {P} _.
Arguments mu {P} _.
Arguments store {P} _.
Arguments calls {P} _.

Inductive FileRead :=
| ReadOk (data : string)
| ReadNotExist (e : error)
| ReadFailed (e : error).

(** What the operating system and the standard library answer during
    one call of the registry. *)
Record Sys := {
  now : Z;
  filepathJoin : list string -> string;
  filepathDir : string -> string;
  mkdirAll : string -> option error;
  readFile : string -> FileRead;
  writeFile : string -> string -> option error;
  jsonUnmarshal : string -> error + option (gmap string Value);
  jsonMarshalIndent : gmap string Value -> error + string
}.

Section WithPrivate.
Context {P : Type}.

Local Open Scope bk_scope.
Abbreviation M := (Bk.M (Manager P)).

(** [NewManager]; [s0] is what the plugins to come already hold in
    memory when the registry is made. *)
Definition NewManager (dir : string) (s0 : Store P) : Manager P :=
  {| dataDir := dir; plugins := ∅; mu := unlocked; store := s0; calls := [] |}.

Definition setPlugins (f : gmap string (PluginInstance P) -> gmap string (PluginInstance P))
    (m : Manager P) : Manager P :=
  {| dataDir := dataDir m; plugins := f (plugins m); mu := mu m;
     store := store m; calls := calls m |}.

Definition setMu (x : RWMutex) (m : Manager P) : Manager P :=
  {| dataDir := dataDir m; plugins := plugins m; mu := x;
     store := store m; calls := calls m |}.

Definition setObjs (f : gmap loc PluginStatus -> gmap loc PluginStatus)
    (m : Manager P) : Manager P :=
  {| dataDir := dataDir m; plugins := plugins m; mu := mu m;
     store := {| objs := f (objs (store m)); next := next (store m);
                 priv := priv (store m) |};
     calls := calls m |}.

(** [m.mu.Lock()]: granted only when nobody holds the mutex. *)
Definition Lock : M unit := fun m =>
  if writer (mu m) || negb (Nat.eqb (readers (mu m)) 0)
  then Bk.Blocked m
  else Bk.Done tt (setMu {| writer := true; readers := 0 |} m).

Definition Unlock : M unit :=
  Bk.modify (fun m => setMu {| writer := false; readers := readers (mu m) |} m).

(** [m.mu.RLock()]: granted unless the mutex is held for writing. *)
Definition RLock : M unit := fun m =>
  if writer (mu m)
  then Bk.Blocked m
  else Bk.Done tt (setMu {| writer := false; readers := S (readers (mu m)) |} m).

Definition RUnlock : M unit :=
  Bk.modify (fun m => setMu {| writer := writer (mu m); readers := pred (readers (mu m)) |} m).

(** A method call on a plugin: it runs on the store and is logged. *)
Definition invoke {A} (c : Call) (f : Store P -> A * Store P) : M A := fun m =>
  let (a, s') := f (store m) in
  Bk.Done a {| dataDir := dataDir m; plugins := plugins m; mu := mu m;
               store := s'; calls := calls m ++ [c] |}.

(** [&PluginStatus{...}]: a new object at a new address. *)
Definition newStatus (st : PluginStatus) : M loc := fun m =>
  let l := next (store m) in
  Bk.Done l {| dataDir := dataDir m; plugins := plugins m; mu := mu m;
               store := {| objs := <[l := st]> (objs (store m));
                           next := S l; priv := priv (store m) |};
               calls := calls m |}.

Definition emptyStatus : PluginStatus :=
  {| Status := ""; StartTime := zeroTime; StopTime := zeroTime; Metrics := ∅;
     LastError := ""; LastUpdated := zeroTime |}.

(** [*p] for a status pointer. Go pointers never dangle; the default
    is there only to make the function total. *)
Definition statusAt (m : Manager P) (l : loc) : PluginStatus :=
  default emptyStatus (objs (store m) !! l).

(** [instance.Status.Status]. *)
Definition instanceStatus (m : Manager P) (inst : PluginInstance P) : string :=
  Status (statusAt m (InstStatus inst)).

(** [instance.Status.Status = s; instance.Status.LastError = e]. *)
Definition markStatus (l : loc) (s e : string) : M unit :=
  Bk.modify (setObjs (alter (fun st =>
    {| Status := s; StartTime := StartTime st; StopTime := StopTime st;
       Metrics := Metrics st; LastError := e; LastUpdated := LastUpdated st |}) l)).

Definition markStartTime (l : loc) (t : Z) : M unit :=
  Bk.modify (setObjs (alter (fun st =>
    {| Status := Status st; StartTime := t; StopTime := StopTime st;
       Metrics := Metrics st; LastError := LastError st;
       LastUpdated := LastUpdated st |}) l)).

Definition withContext (c : PluginContext) (i : PluginInstance P) : PluginInstance P :=
  {| Plugin_ := Plugin_ i; Context := Some c; Config := Config i;
     InstStatus := InstStatus i; ConfigFile := ConfigFile i |}.

Definition withConfig (c : option (gmap string Value)) (i : PluginInstance P)
    : PluginInstance P :=
  {| Plugin_ := Plugin_ i; Context := Context i; Config := c;
     InstStatus := InstStatus i; ConfigFile := ConfigFile i |}.

Definition withStatus (l : loc) (i : PluginInstance P) : PluginInstance P :=
  {| Plugin_ := Plugin_ i; Context := Context i; Config := Config i;
     InstStatus := l; ConfigFile := ConfigFile i |}.

Variable sys : Sys.

Definition Register (plugin : Plugin P) : M (option error) :=
  let* _ := Lock in
  match Info plugin with
  | None => let* _ := Unlock in Bk.ret (Some ErrInvalidPluginInfo)
  | Some info =>
      let* m := Bk.get in
      match plugins m !! Name info with
      | Some _ => let* _ := Unlock in Bk.ret (Some ErrPluginAlreadyExists)
      | None =>
          let* l := newStatus {| Status := "stopped"; StartTime := zeroTime;
                                 StopTime := zeroTime; Metrics := ∅; LastError := "";
                                 LastUpdated := now sys |} in
          let instance :=
            {| Plugin_ := plugin; Context := None; Config := Some ∅;
               InstStatus := l;
               ConfigFile := filepathJoin sys [dataDir m; "plugins"; Name info +:+ ".json"] |} in
          let* _ := Bk.modify (setPlugins (insert (Name info) instance)) in
          let* _ := Unlock in
          Bk.ret None
      end
  end.

Definition Unregister (pluginName : string) : M (option error) :=
  let* _ := Lock in
  let* m := Bk.get in
  match plugins m !! pluginName with
  | None => let* _ := Unlock in Bk.ret (Some ErrPluginNotFound)
  | Some instance =>
      let* _ :=
        (if decide (instanceStatus m instance = "running")
         then let* _ := invoke (CallStop (ptr (Plugin_ instance))) (Stop (Plugin_ instance)) in
              Bk.ret tt
         else Bk.ret tt) in
      let* _ := Bk.modify (setPlugins (delete pluginName)) in
      let* _ := Unlock in
      Bk.ret None
  end.

Definition GetPlugin (name : string) : M (option (Plugin P)) :=
  let* _ := RLock in
  let* m := Bk.get in
  let* _ := RUnlock in
  Bk.ret (Plugin_ <$> plugins m !! name).

Definition LoadPluginConfig (name : string) : M (option error) :=
  let* _ := RLock in
  let* m := Bk.get in
  let* _ := RUnlock in
  match plugins m !! name with
  | None => Bk.ret (Some ErrPluginNotFound)
  | Some instance =>
      match mkdirAll sys (filepathDir sys (ConfigFile instance)) with
      | Some e => Bk.ret (Some e)
      | None =>
          match readFile sys (ConfigFile instance) with
          | ReadNotExist _ => Bk.ret None
          | ReadFailed e => Bk.ret (Some e)
          | ReadOk data =>
              match jsonUnmarshal sys data with
              | inl e => Bk.ret (Some e)
              | inr config =>
                  let* _ := Bk.modify (setPlugins (alter (withConfig config) name)) in
                  Bk.ret None
              end
          end
      end
  end.

Definition SavePluginConfig (name : string) : M (option error) :=
  let* _ := RLock in
  let* m := Bk.get in
  let* _ := RUnlock in
  match plugins m !! name with
  | None => Bk.ret (Some ErrPluginNotFound)
  | Some instance =>
      let* config := invoke (CallGetConfig (ptr (Plugin_ instance)))
                       (GetConfig (Plugin_ instance)) in
      let config := default ∅ config in
      match mkdirAll sys (filepathDir sys (ConfigFile instance)) with
      | Some e => Bk.ret (Some e)
      | None =>
          match jsonMarshalIndent sys config with
          | inl e => Bk.ret (Some e)
          | inr data => Bk.ret (writeFile sys (ConfigFile instance) data)
          end
      end
  end.

Definition StartPlugin (name : string) : M (option error) :=
  let* _ := Lock in
  let* m := Bk.get in
  match plugins m !! name with
  | None => let* _ := Unlock in Bk.ret (Some ErrPluginNotFound)
  | Some instance =>
      if decide (instanceStatus m instance = "running")
      then let* _ := Unlock in Bk.ret (Some ErrPluginAlreadyStarted)
      else
        let* _ := LoadPluginConfig name in
        let ctx := {| pluginName := name |} in
        let* _ := Bk.modify (setPlugins (alter (withContext ctx) name)) in
        let* e := invoke (CallInit (ptr (Plugin_ instance)) ctx)
                    (Init (Plugin_ instance) ctx) in
        match e with
        | Some e =>
            let* _ := markStatus (InstStatus instance) "error" (errorText e) in
            let* _ := Unlock in
            Bk.ret (Some (wrapf ("failed to init plugin " +:+ name +:+ ": ") e))
        | None =>
            let* e := invoke (CallStart (ptr (Plugin_ instance)))
                        (Start (Plugin_ instance)) in
            match e with
            | Some e =>
                let* _ := markStatus (InstStatus instance) "error" (errorText e) in
                let* _ := Unlock in
                Bk.ret (Some (wrapf ("failed to start plugin " +:+ name +:+ ": ") e))
            | None =>
                let* _ := markStatus (InstStatus instance) "running" "" in
                let* _ := markStartTime (InstStatus instance) (now sys) in
                let* _ := Unlock in
                Bk.ret None
            end
        end
  end.

Definition StopPlugin (name : string) : M (option error) :=
  let* _ := Lock in
  let* m := Bk.get in
  match plugins m !! name with
  | None => let* _ := Unlock in Bk.ret (Some ErrPluginNotFound)
  | Some instance =>
      if decide (instanceStatus m instance = "running")
      then
        let* e := invoke (CallStop (ptr (Plugin_ instance))) (Stop (Plugin_ instance)) in
        match e with
        | Some e =>
            let* _ := markStatus (InstStatus instance) "error" (errorText e) in
            let* _ := Unlock in
            Bk.ret (Some (wrapf ("failed to stop plugin " +:+ name +:+ ": ") e))
        | None =>
            let* _ := SavePluginConfig name in
            let* _ := markStatus (InstStatus instance) "stopped" "" in
            let* _ := Unlock in
            Bk.ret None
        end
      else let* _ := Unlock in Bk.ret (Some ErrPluginNotStarted)
  end.

(** The body of the loops of [StartAll] and [StopAll]: every name is
    tried, the failures are collected in order. *)
Fixpoint forEach (op : string -> M (option error)) (prefix : string)
    (names : list string) : M (list error) :=
  match names with
  | [] => Bk.ret []
  | name :: rest =>
      let* e := op name in
      let* errors := forEach op prefix rest in
      Bk.ret (match e with
              | Some e => wrapf (prefix +:+ name +:+ ": ") e :: errors
              | None => errors
              end)
  end.

(** [range] over a Go map visits the keys in an order of its own
    choosing; [names] is that order. *)
Definition StartAll (names : list string) : M (option error) :=
  let* _ := RLock in
  let* _ := RUnlock in
  let* errors := forEach StartPlugin "failed to start plugin " names in
  match errors with
  | [] => Bk.ret None
  | _ :: _ => Bk.ret (Some (ErrNew ("failed to start some plugins: " +:+ formatErrors errors)))
  end.

Definition StopAll (names : list string) : M (option error) :=
  let* _ := RLock in
  let* _ := RUnlock in
  let* errors := forEach StopPlugin "failed to stop plugin " names in
  match errors with
  | [] => Bk.ret None
  | _ :: _ => Bk.ret (Some (ErrNew ("failed to stop some plugins: " +:+ formatErrors errors)))
  end.

(** The part of the status getters that polls one instance:
    [status := instance.Plugin.Status(); if status != nil
    { instance.Status = status }]. *)
Definition poll (name : string) (instance : PluginInstance P) : M loc :=
  let* status := invoke (CallStatus (ptr (Plugin_ instance))) (PStatus (Plugin_ instance)) in
  match status with
  | Some l =>
      let* _ := Bk.modify (setPlugins (alter (withStatus l) name)) in
      Bk.ret l
  | None => Bk.ret (InstStatus instance)
  end.

Definition GetPluginStatus (name : string) : M (option loc * option error) :=
  let* _ := RLock in
  let* m := Bk.get in
  match plugins m !! name with
  | None => let* _ := RUnlock in Bk.ret (None, Some ErrPluginNotFound)
  | Some instance =>
      let* l := poll name instance in
      let* _ := RUnlock in
      Bk.ret (Some l, None)
  end.

Fixpoint pollAll (names : list string) : M (gmap string loc) :=
  match names with
  | [] => Bk.ret ∅
  | name :: rest =>
      let* m := Bk.get in
      match plugins m !! name with
      | None => pollAll rest
      | Some instance =>
          let* l := poll name instance in
          let* statuses := pollAll rest in
          Bk.ret (<[name := l]> statuses)
      end
  end.

Definition GetAllPluginStatus (names : list string) : M (gmap string loc) :=
  let* _ := RLock in
  let* statuses := pollAll names in
  let* _ := RUnlock in
  Bk.ret statuses.

Definition SendCommand (pluginName command : string) (args : gmap string Value)
    : M (Value * option error) :=
  let* _ := RLock in
  let* m := Bk.get in
  let* _ := RUnlock in
  match plugins m !! pluginName with
  | None => Bk.ret (VNil, Some ErrPluginNotFound)
  | Some instance =>
      if decide (instanceStatus m instance = "running")
      then invoke (CallHandleCommand (ptr (Plugin_ instance)) command args)
             (HandleCommand (Plugin_ instance) command args)
      else Bk.ret (VNil, Some ErrPluginNotStarted)
  end.

Definition SendEvent (pluginName eventType : string) (data : gmap string Value)
    : M (option error) :=
  let* _ := RLock in
  let* m := Bk.get in
  let* _ := RUnlock in
  match plugins m !! pluginName with
  | None => Bk.ret (Some ErrPluginNotFound)
  | Some instance =>
      if decide (instanceStatus m instance = "running")
      then invoke (CallHandleEvent (ptr (Plugin_ instance)) eventType data)
             (HandleEvent (Plugin_ instance) eventType data)
      else Bk.ret (Some ErrPluginNotStarted)
  end.

End WithPrivate.

(** The calls a client can make on the registry. [RegisterFactory] and
    [CreatePlugin] only touch the table of factories and [ListPlugins]
    only reads, so they are not listed. *)
Inductive Op (P : Type) :=
| OpRegister (plugin : Plugin P)
| OpUnregister (name : string)
| OpGetPlugin (name : string)
| OpStartPlugin (name : string)
| OpStopPlugin (name : string)
| OpStartAll (names : list string)
| OpStopAll (names : list string)
| OpGetPluginStatus (name : string)
| OpGetAllPluginStatus (names : list string)
| OpSendCommand (name command : string) (args : gmap string Value)
| OpSendEvent (name eventType : string) (data : gmap string Value)
| OpLoadPluginConfig (name : string)
| OpSavePluginConfig (name : string).
Arguments OpRegister {P} _.
Arguments OpUnregister {P} _.
Arguments OpGetPlugin {P} _.
Arguments OpStartPlugin {P} _.
Arguments OpStopPlugin {P} _.
Arguments OpStartAll {P} _.
Arguments OpStopAll {P} _.
Arguments OpGetPluginStatus {P} _.
Arguments OpGetAllPluginStatus {P} _.
Arguments OpSendCommand {P} _ _ _.
Arguments OpSendEvent {P} _ _ _.
Arguments OpLoadPluginConfig {P} _.
Arguments OpSavePluginConfig {P} _.

(** The registry after a call, returned or parked. *)
Definition after {P} (sys : Sys) (op : Op P) (m : Manager P) : Manager P :=
  match op with
  | OpRegister p => Bk.final (Register sys p m)
  | OpUnregister n => Bk.final (Unregister n m)
  | OpGetPlugin n => Bk.final (GetPlugin n m)
  | OpStartPlugin n => Bk.final (StartPlugin sys n m)
  | OpStopPlugin n => Bk.final (StopPlugin sys n m)
  | OpStartAll ns => Bk.final (StartAll sys ns m)
  | OpStopAll ns => Bk.final (StopAll sys ns m)
  | OpGetPluginStatus n => Bk.final (GetPluginStatus n m)
  | OpGetAllPluginStatus ns => Bk.final (GetAllPluginStatus ns m)
  | OpSendCommand n c a => Bk.final (SendCommand n c a m)
  | OpSendEvent n c a => Bk.final (SendEvent n c a m)
  | OpLoadPluginConfig n => Bk.final (LoadPluginConfig sys n m)
  | OpSavePluginConfig n => Bk.final (SavePluginConfig sys n m)
  end.

Inductive reachable {P} : Manager P -> Prop :=
| reachable_new dir s0 : reachable (NewManager dir s0)
| reachable_after sys op m : reachable m -> reachable (after sys op m).

(** Every entry sits under the name its plugin's descriptor gives. *)
Definition names_ok {P} (m : Manager P) : Prop :=
  forall k inst, plugins m !! k = Some inst ->
    exists info, Info (Plugin_ inst) = Some info /\ Name info = k.

(** A computation keeps that, whether it returns or parks. *)
Definition keeps {P A} (c : Bk.M (Manager P) A) : Prop :=
  forall m, names_ok m -> names_ok (Bk.final (c m)).

(** The mutex held by one writer, and by one reader. *)
Definition writeHeld : RWMutex := {| writer := true; readers := 0 |}.
Definition readHeld : RWMutex := {| writer := false; readers := 1 |}.

(** Where a call that returns leaves the mutex, given where it found
    it. *)
Definition locks {P A} (pre post : RWMutex) (c : Bk.M (Manager P) A) : Prop :=
  forall m a m', mu m = pre -> c m = Bk.Done a m' -> mu m' = post.

(** The call came back to its caller. *)
Definition came_back {P} (sys : Sys) (op : Op P) (m : Manager P) : Prop :=
  match op with
  | OpRegister p => is_Some (Bk.returned (Register sys p m))
  | OpUnregister n => is_Some (Bk.returned (Unregister n m))
  | OpGetPlugin n => is_Some (Bk.returned (GetPlugin n m))
  | OpStartPlugin n => is_Some (Bk.returned (StartPlugin sys n m))
  | OpStopPlugin n => is_Some (Bk.returned (StopPlugin sys n m))
  | OpStartAll ns => is_Some (Bk.returned (StartAll sys ns m))
  | OpStopAll ns => is_Some (Bk.returned (StopAll sys ns m))
  | OpGetPluginStatus n => is_Some (Bk.returned (GetPluginStatus n m))
  | OpGetAllPluginStatus ns => is_Some (Bk.returned (GetAllPluginStatus ns m))
  | OpSendCommand n c a => is_Some (Bk.returned (SendCommand n c a m))
  | OpSendEvent n c a => is_Some (Bk.returned (SendEvent n c a m))
  | OpLoadPluginConfig n => is_Some (Bk.returned (LoadPluginConfig sys n m))
  | OpSavePluginConfig n => is_Some (Bk.returned (SavePluginConfig sys n m))
  end.

(** The plugin the repository's tests register: it keeps a status
    object of its own at address [status] and its configuration in
    the private memory, under its own identity. *)
Definition MockPlugin (id : nat) (info : option PluginInfo) (status : loc) (clock : Z)
    : Plugin (gmap nat (gmap string Value)) :=
  let setStatus (f : PluginStatus -> PluginStatus) (s : Store (gmap nat (gmap string Value))) :=
    {| objs := alter f status (objs s); next := next s; priv := priv s |} in
  {| ptr := id;
     Info := info;
     Init := fun _ s => (None, s);
     Start := fun s =>
       (None, setStatus (fun st =>
          {| Status := "running"; StartTime := clock; StopTime := StopTime st;
             Metrics := Metrics st; LastError := LastError st;
             LastUpdated := LastUpdated st |}) s);
     Stop := fun s =>
       (None, setStatus (fun st =>
          {| Status := "stopped"; StartTime := StartTime st; StopTime := StopTime st;
             Metrics := Metrics st; LastError := LastError st;
             LastUpdated := LastUpdated st |}) s);
     HandleCommand := fun command args s =>
       ((VMap [("command", VString command); ("args", VMap (map_to_list args))], None), s);
     HandleEvent := fun _ _ s => (None, s);
     PStatus := fun s => (Some status, s);
     Health := fun s => (None, s);
     GetConfig := fun s => (priv s !! id, s);
     SetConfig := fun config s =>
       (None, {| objs := objs s; next := next s; priv := <[id := config]> (priv s) |}) |}.

Definition testInfo (name : string) : PluginInfo :=
  {| Name := name; Version := "1.0.0"; Description := ""; Author := ""; License := "";
     Homepage := ""; Tags := []; InfoConfig := ∅ |}.

(** A machine on which the configuration directory can be made and
    holds no file. *)
Definition testSys : Sys :=
  {| now := 1700000000 * Second;
     filepathJoin := fun parts => joinSpace parts;
     filepathDir := fun p => p;
     mkdirAll := fun _ => None;
     readFile := fun _ => ReadNotExist (ErrNew "no such file or directory");
     writeFile := fun _ _ => None;
     jsonUnmarshal := fun _ => inr None;
     jsonMarshalIndent := fun _ => inr "{}" |}.

Definition statusWith (s : string) : PluginStatus :=
  {| Status := s; StartTime := zeroTime; StopTime := zeroTime; Metrics := ∅;
     LastError := ""; LastUpdated := zeroTime |}.

(** The registry of the test [TestManagerSendCommand] once the status
    of the plugin has been polled: one plugin, ["test-plugin"], whose
    own status object says ["running"]. *)
Definition testManager : Manager (gmap nat (gmap string Value)) :=
  let m0 := NewManager "/var/agent"
              {| objs := {[ 0%nat := statusWith "running" ]}; next := 1%nat; priv := ∅ |} in
  let m1 := after testSys
              (OpRegister (MockPlugin 7 (Some (testInfo "test-plugin")) 0%nat 0)) m0 in
  after testSys (OpGetPluginStatus "test-plugin") m1.

(** The one instance [testManager] holds. *)
Definition testInstance : PluginInstance (gmap nat (gmap string Value)) :=
  {| Plugin_ := MockPlugin 7 (Some (testInfo "test-plugin")) 0%nat 0;
     Context := None; Config := Some ∅; InstStatus := 0%nat;
     ConfigFile := "/var/agent plugins test-plugin.json" |}.

(** The registry of the tests right after [Register]: the instance
    has the status object the registry made for it, ["stopped"]. *)
Definition registeredManager : Manager (gmap nat (gmap string Value)) :=
  after testSys (OpRegister (MockPlugin 7 (Some (testInfo "test-plugin")) 0%nat 0))
    (NewManager "/var/agent"
       {| objs := {[ 0%nat := statusWith "running" ]}; next := 1%nat; priv := ∅ |}).

Definition registeredInstance : PluginInstance (gmap nat (gmap string Value)) :=
  {| Plugin_ := MockPlugin 7 (Some (testInfo "test-plugin")) 0%nat 0;
     Context := None; Config := Some ∅; InstStatus := 1%nat;
     ConfigFile := "/var/agent plugins test-plugin.json" |}.

(** A plugin like [MockPlugin] whose [Stop] fails. *)
Definition StubbornPlugin (id : nat) (info : option PluginInfo) (status : loc)
    : Plugin (gmap nat (gmap string Value)) :=
  {| ptr := id;
     Info := info;
     Init := Init (MockPlugin id info status 0);
     Start := Start (MockPlugin id info status 0);
     Stop := fun s => (Some (ErrNew "still busy"), s);
     HandleCommand := HandleCommand (MockPlugin id info status 0);
     HandleEvent := HandleEvent (MockPlugin id info status 0);
     PStatus := PStatus (MockPlugin id info status 0);
     Health := Health (MockPlugin id info status 0);
     GetConfig := GetConfig (MockPlugin id info status 0);
     SetConfig := SetConfig (MockPlugin id info status 0) |}.

(** A registry holding a stubborn plugin that runs. *)
Definition stubbornManager : Manager (gmap nat (gmap string Value)) :=
  let m0 := NewManager "/var/agent"
              {| objs := {[ 0%nat := statusWith "running" ]}; next := 1%nat; priv := ∅ |} in
  let m1 := after testSys
              (OpRegister (StubbornPlugin 9 (Some (testInfo "stubborn")) 0%nat)) m0 in
  after testSys (OpGetPluginStatus "stubborn") m1.

Definition stubbornInstance : PluginInstance (gmap nat (gmap string Value)) :=
  {| Plugin_ := StubbornPlugin 9 (Some (testInfo "stubborn")) 0%nat;
     Context := None; Config := Some ∅; InstStatus := 0%nat;
     ConfigFile := "/var/agent plugins stubborn.json" |}.

End PluginManager.

(** ** internal/state: the persisted status record *)

Module StateStore.

(** Float fields hold the IEEE 754 bits of the [float64]; [Uptime] is
    kept in nanoseconds, the source converts it to seconds. *)
Record Status := {
  AgentID : string;
  Version : string;
  Status_ : string;
  StartTime : Z;
  LastHeartbeat : Z;
  SystemInfo : option (gmap string Value);
  RunningTasks : Z;
  TotalTasks : Z;
  Uptime : Z;
  MemoryUsage : Z;
  CPUUsage : Z;
  DiskUsage : Z
}.

Record Manager := {
  dataDir : string;
  status : Status;
  startTime : Z
}.

(** The state store: the record in memory and the files on disk. The
    mutex [m.mu] is left out: every method takes it on entry and
    releases it on return, and none calls another method of the store
    while holding it. *)
Record Store := {
  manager : Manager;
  disk : gmap string string
}.

Record Sys := {
  filepathJoin : list string -> string;
  jsonMarshalIndent : Status -> error + string;
  jsonUnmarshal : string -> error + Status;
  mkdirAll : string -> option error;
  readError : string -> option error;
  writeError : string -> option error
}.

(** [t.Sub(u)]: the difference, saturated to the range of
    [time.Duration]. *)
Definition Sub (t u : Z) : Z := Z.max minInt64 (Z.min maxInt64 (t - u)).

(** [time.Since(t)] when [time.Now()] reads [now]. *)
Definition Since (now t : Z) : Z := Sub now t.

Definition setStatus (f : Status -> Status) (s : Store) : Store :=
  {| manager := {| dataDir := dataDir (manager s); status := f (status (manager s));
                   startTime := startTime (manager s) |};
     disk := disk s |}.

Definition withState (x : string) (st : Status) : Status :=
  {| AgentID := AgentID st; Version := Version st; Status_ := x;
     StartTime := StartTime st; LastHeartbeat := LastHeartbeat st;
     SystemInfo := SystemInfo st; RunningTasks := RunningTasks st;
     TotalTasks := TotalTasks st; Uptime := Uptime st; MemoryUsage := MemoryUsage st;
     CPUUsage := CPUUsage st; DiskUsage := DiskUsage st |}.

Definition withStartTime (t : Z) (st : Status) : Status :=
  {| AgentID := AgentID st; Version := Version st; Status_ := Status_ st;
     StartTime := t; LastHeartbeat := LastHeartbeat st;
     SystemInfo := SystemInfo st; RunningTasks := RunningTasks st;
     TotalTasks := TotalTasks st; Uptime := Uptime st; MemoryUsage := MemoryUsage st;
     CPUUsage := CPUUsage st; DiskUsage := DiskUsage st |}.

Definition withLastHeartbeat (t : Z) (st : Status) : Status :=
  {| AgentID := AgentID st; Version := Version st; Status_ := Status_ st;
     StartTime := StartTime st; LastHeartbeat := t;
     SystemInfo := SystemInfo st; RunningTasks := RunningTasks st;
     TotalTasks := TotalTasks st; Uptime := Uptime st; MemoryUsage := MemoryUsage st;
     CPUUsage := CPUUsage st; DiskUsage := DiskUsage st |}.

Definition withUptime (d : Z) (st : Status) : Status :=
  {| AgentID := AgentID st; Version := Version st; Status_ := Status_ st;
     StartTime := StartTime st; LastHeartbeat := LastHeartbeat st;
     SystemInfo := SystemInfo st; RunningTasks := RunningTasks st;
     TotalTasks := TotalTasks st; Uptime := d; MemoryUsage := MemoryUsage st;
     CPUUsage := CPUUsage st; DiskUsage := DiskUsage st |}.

Definition withTaskCount (running total : Z) (st : Status) : Status :=
  {| AgentID := AgentID st; Version := Version st; Status_ := Status_ st;
     StartTime := StartTime st; LastHeartbeat := LastHeartbeat st;
     SystemInfo := SystemInfo st; RunningTasks := running;
     TotalTasks := total; Uptime := Uptime st; MemoryUsage := MemoryUsage st;
     CPUUsage := CPUUsage st; DiskUsage := DiskUsage st |}.

Definition withAgentID (id : string) (st : Status) : Status :=
  {| AgentID := id; Version := Version st; Status_ := Status_ st;
     StartTime := StartTime st; LastHeartbeat := LastHeartbeat st;
     SystemInfo := SystemInfo st; RunningTasks := RunningTasks st;
     TotalTasks := TotalTasks st; Uptime := Uptime st; MemoryUsage := MemoryUsage st;
     CPUUsage := CPUUsage st; DiskUsage := DiskUsage st |}.

Definition withVersion (v : string) (st : Status) : Status :=
  {| AgentID := AgentID st; Version := v; Status_ := Status_ st;
     StartTime := StartTime st; LastHeartbeat := LastHeartbeat st;
     SystemInfo := SystemInfo st; RunningTasks := RunningTasks st;
     TotalTasks := TotalTasks st; Uptime := Uptime st; MemoryUsage := MemoryUsage st;
     CPUUsage := CPUUsage st; DiskUsage := DiskUsage st |}.

(** [info[key].(float64)], keeping the old value when the key is
    missing or holds something else. *)
Definition floatOr (info : gmap string Value) (key : string) (old : Z) : Z :=
  match info !! key with
  | Some (VFloat bits) => bits
  | _ => old
  end.

Definition withSystemInfo (info : option (gmap string Value)) (t : Z) (st : Status) : Status :=
  let entries := default ∅ info in
  {| AgentID := AgentID st; Version := Version st; Status_ := Status_ st;
     StartTime := StartTime st; LastHeartbeat := t;
     SystemInfo := info; RunningTasks := RunningTasks st;
     TotalTasks := TotalTasks st; Uptime := Uptime st;
     MemoryUsage := floatOr entries "memory_usage" (MemoryUsage st);
     CPUUsage := floatOr entries "cpu_usage" (CPUUsage st);
     DiskUsage := floatOr entries "disk_usage" (DiskUsage st) |}.

Section WithSys.
Variable sys : Sys.

Local Open Scope st_scope.
Abbreviation M := (St.M Store).

Definition saveStatus : M (option error) := fun s =>
  let statusFile := filepathJoin sys [dataDir (manager s); "status.json"] in
  match jsonMarshalIndent sys (status (manager s)) with
  | inl e => (Some (ErrNew ("failed to marshal status: " +:+ errorText e)), s)
  | inr data =>
      match writeError sys statusFile with
      | Some e => (Some (ErrNew ("failed to write status file: " +:+ errorText e)), s)
      | None => (None, {| manager := manager s; disk := <[statusFile := data]> (disk s) |})
      end
  end.

Definition loadStatus : M (option error) := fun s =>
  let statusFile := filepathJoin sys [dataDir (manager s); "status.json"] in
  match disk s !! statusFile with
  | None => (None, s)
  | Some data =>
      match readError sys statusFile with
      | Some e => (Some (ErrNew ("failed to read status file: " +:+ errorText e)), s)
      | None =>
          match jsonUnmarshal sys data with
          | inl e => (Some (ErrNew ("failed to unmarshal status: " +:+ errorText e)), s)
          | inr st => (None, setStatus (fun _ => st) s)
          end
      end
  end.

Definition zeroStatus : Status :=
  {| AgentID := ""; Version := ""; Status_ := ""; StartTime := zeroTime;
     LastHeartbeat := zeroTime; SystemInfo := None; RunningTasks := 0; TotalTasks := 0;
     Uptime := 0; MemoryUsage := 0; CPUUsage := 0; DiskUsage := 0 |}.

(** [NewManager]; [t1] and [t2] are the two readings of the clock. A
    status file that cannot be read or parsed is only logged. *)
Definition NewManager (dir : string) (t1 t2 : Z) (files : gmap string string)
    : error + Store :=
  match mkdirAll sys dir with
  | Some e => inl e
  | None =>
      let m := {| dataDir := dir; startTime := t1;
                  status := withStartTime t2 (withState "stopped" zeroStatus) |} in
      inr (loadStatus {| manager := m; disk := files |}).2
  end.

(** [Start]; the clock is read twice. *)
Definition Start (t1 t2 : Z) : M (option error) :=
  let* _ := St.modify (setStatus (fun st =>
              withLastHeartbeat t2 (withStartTime t1 (withState "running" st)))) in
  saveStatus.

Definition Stop : M unit :=
  let* _ := St.modify (setStatus (withState "stopped")) in
  let* _ := saveStatus in
  St.ret tt.

Definition GetStatus (now : Z) : M Status :=
  let* s := St.get in
  let* _ := St.modify (setStatus (withUptime (Since now (startTime (manager s))))) in
  let* s := St.get in
  St.ret (status (manager s)).

Definition UpdateSystemInfo (info : option (gmap string Value)) (now : Z) : M unit :=
  let* _ := St.modify (setStatus (withSystemInfo info now)) in
  let* _ := saveStatus in
  St.ret tt.

Definition UpdateTaskCount (running total : Z) (now : Z) : M unit :=
  let* _ := St.modify (setStatus (fun st =>
              withLastHeartbeat now (withTaskCount running total st))) in
  let* _ := saveStatus in
  St.ret tt.

Definition UpdateHeartbeat (now : Z) : M unit :=
  let* _ := St.modify (setStatus (withLastHeartbeat now)) in
  let* _ := saveStatus in
  St.ret tt.

Definition SetAgentID (id : string) : M unit :=
  let* _ := St.modify (setStatus (withAgentID id)) in
  let* _ := saveStatus in
  St.ret tt.

Definition SetVersion (version : string) : M unit :=
  let* _ := St.modify (setStatus (withVersion version)) in
  let* _ := saveStatus in
  St.ret tt.

(** [IsHealthy]; [now] is the reading of the clock inside
    [time.Since]. *)
Definition IsHealthy (now : Z) : M bool :=
  let* s := St.get in
  if 5 * Minute <? Since now (LastHeartbeat (status (manager s)))
  then St.ret false
  else if decide (Status_ (status (manager s)) = "running")
       then St.ret true
       else St.ret false.

End WithSys.

(** The calls that change the record. *)
Inductive Mutation :=
| MStart (t1 t2 : Z)
| MStop
| MUpdateSystemInfo (info : option (gmap string Value)) (now : Z)
| MUpdateTaskCount (running total now : Z)
| MUpdateHeartbeat (now : Z)
| MSetAgentID (id : string)
| MSetVersion (version : string).

(** The store after such a call. *)
Definition mutate (sys : Sys) (c : Mutation) (s : Store) : Store :=
  match c with
  | MStart t1 t2 => (Start sys t1 t2 s).2
  | MStop => (Stop sys s).2
  | MUpdateSystemInfo info now => (UpdateSystemInfo sys info now s).2
  | MUpdateTaskCount running total now => (UpdateTaskCount sys running total now s).2
  | MUpdateHeartbeat now => (UpdateHeartbeat sys now s).2
  | MSetAgentID id => (SetAgentID sys id s).2
  | MSetVersion version => (SetVersion sys version s).2
  end.

(** What the call does to the record in memory. *)
Definition edit (c : Mutation) : Status -> Status :=
  match c with
  | MStart t1 t2 => fun st => withLastHeartbeat t2 (withStartTime t1 (withState "running" st))
  | MStop => withState "stopped"
  | MUpdateSystemInfo info now => withSystemInfo info now
  | MUpdateTaskCount running total now =>
      fun st => withLastHeartbeat now (withTaskCount running total st)
  | MUpdateHeartbeat now => withLastHeartbeat now
  | MSetAgentID id => withAgentID id
  | MSetVersion version => withVersion version
  end.

Definition statusFile (sys : Sys) (s : Store) : string :=
  filepathJoin sys [dataDir (manager s); "status.json"].

(** A machine whose disk takes every write, with a codec that only
    carries the agent id of a stopped agent. *)
Definition plainSys : Sys :=
  {| filepathJoin := fun parts => joinSpace parts;
     jsonMarshalIndent := fun st => inr (AgentID st);
     jsonUnmarshal := fun data => inr (withAgentID data (withState "stopped" zeroStatus));
     mkdirAll := fun _ => None;
     readError := fun _ => None;
     writeError := fun _ => None |}.

Definition freshStore : Store :=
  {| manager := {| dataDir := "/var/agent"; startTime := 0;
                   status := withState "stopped" zeroStatus |};
     disk := ∅ |}.

End StateStore.

(** ** internal/plugin/updater: version comparison *)

Module Updater.

(** How Go orders two strings with [<] and [>]: byte by byte, a
    proper prefix first. *)
Fixpoint stringLess (a b : string) : bool :=
  match a, b with
  | EmptyString, EmptyString => false
  | EmptyString, String _ _ => true
  | String _ _, EmptyString => false
  | String x a', String y b' =>
      if (nat_of_ascii x <? nat_of_ascii y)%nat then true
      else if (nat_of_ascii y <? nat_of_ascii x)%nat then false
      else stringLess a' b'
  end.

(** [v1 > v2]. *)
Definition stringGreater (a b : string) : bool := stringLess b a.

Record UpdateInfo := {
  Version : string;
  URL : string;
  Checksum : string;
  ReleaseDate : Z;
  Changelog : string;
  Size : Z
}.

(** The fields of the plugin that matter here. *)
Record UpdaterPlugin := {
  currentVersion : string;
  updateURL : string;
  downloadDir : string
}.

Definition compareVersions (p : UpdaterPlugin) (v1 v2 : string) : Z :=
  if decide (v1 = v2) then 0
  else if stringGreater v1 v2 then 1
  else -1.

(** [checkUpdate] is a placeholder in the source: it asks nobody and
    reports no update and no error. *)
Definition checkUpdate (p : UpdaterPlugin) : option UpdateInfo * option error :=
  (None, None).

(** What [isUpdateAvailable] does with the answer of [checkUpdate]. *)
Definition decideUpdate (p : UpdaterPlugin) (answer : option UpdateInfo * option error)
    : bool * option UpdateInfo * option error :=
  match answer with
  | (_, Some e) => (false, None, Some e)
  | (None, None) => (false, None, None)
  | (Some update, None) =>
      (0 <? compareVersions p (Version update) (currentVersion p), Some update, None)
  end.

Definition isUpdateAvailable (p : UpdaterPlugin) : bool * option UpdateInfo * option error :=
  decideUpdate p (checkUpdate p).

(** Lexicographic order on byte strings, as one would define it:
    the empty string is below every other string; otherwise the first
    bytes decide, and if they agree the rest does. *)
Inductive lexLess : string -> string -> Prop :=
| lexLess_empty c s : lexLess EmptyString (String c s)
| lexLess_head x y s t :
    (nat_of_ascii x < nat_of_ascii y)%nat -> lexLess (String x s) (String y t)
| lexLess_tail x s t : lexLess s t -> lexLess (String x s) (String x t).

End Updater.

(** ** internal/plugin/scheduler: tasks bound to cron expressions *)

Module Scheduler.

Record TaskResult := {
  RStartTime : Z;
  REndTime : Z;
  RDuration : Z;
  RExitCode : Z;
  ROutput : string;
  RError : string;
  RSuccess : bool
}.

Record TaskInfo := {
  ID : string;
  Name : string;
  Description : string;
  CronExpr : string;
  Command : string;
  Args : list string;
  Type_ : string;
  Enabled : bool;
  Status : string;
  LastRun : Z;
  NextRun : Z;
  RunCount : Z;
  SuccessCount : Z;
  FailureCount : Z;
  LastResult : option TaskResult;
  Metadata : gmap string Value;
  EntryID : Z
}.

(** The cron library (github.com/robfig/cron/v3), which is not part
    of the repository: its scheduler is some type [C], and these are
    the calls the plugin makes. [ParseStandard] gives the error for an
    expression it rejects; [AddFunc] parses with the scheduler's own
    parser and returns the new entry's id. *)
Record CronLib (C : Type) := {
  ParseStandard : string -> option error;
  AddFunc : C -> string -> string -> error + (Z * C);
  Remove : C -> Z -> C;
  EntryNext : C -> Z -> Z
}.
Arguments ParseStandard {C} _ _.
Arguments AddFunc {C} _ _ _ _.
Arguments Remove {C} _ _ _.
Arguments EntryNext {C} _ _ _.

(** The plugin: its tasks and its scheduler. [p.mu] is taken and
    released around each handler body and is left out: no handler
    calls another one. *)
Record SchedulerPlugin (C : Type) := {
  scheduler : C;
  tasks : gmap string TaskInfo
}.
Arguments scheduler {C} _.
Arguments tasks {C} _.

Definition setName (x : string) (t : TaskInfo) : TaskInfo :=
  {| ID := ID t; Name := x; Description := Description t; CronExpr := CronExpr t;
     Command := Command t; Args := Args t; Type_ := Type_ t; Enabled := Enabled t;
     Status := Status t; LastRun := LastRun t; NextRun := NextRun t;
     RunCount := RunCount t; SuccessCount := SuccessCount t;
     FailureCount := FailureCount t; LastResult := LastResult t;
     Metadata := Metadata t; EntryID := EntryID t |}.

Definition setDescription (x : string) (t : TaskInfo) : TaskInfo :=
  {| ID := ID t; Name := Name t; Description := x; CronExpr := CronExpr t;
     Command := Command t; Args := Args t; Type_ := Type_ t; Enabled := Enabled t;
     Status := Status t; LastRun := LastRun t; NextRun := NextRun t;
     RunCount := RunCount t; SuccessCount := SuccessCount t;
     FailureCount := FailureCount t; LastResult := LastResult t;
     Metadata := Metadata t; EntryID := EntryID t |}.

Definition setCronExpr (x : string) (t : TaskInfo) : TaskInfo :=
  {| ID := ID t; Name := Name t; Description := Description t; CronExpr := x;
     Command := Command t; Args := Args t; Type_ := Type_ t; Enabled := Enabled t;
     Status := Status t; LastRun := LastRun t; NextRun := NextRun t;
     RunCount := RunCount t; SuccessCount := SuccessCount t;
     FailureCount := FailureCount t; LastResult := LastResult t;
     Metadata := Metadata t; EntryID := EntryID t |}.

Definition setCommand (x : string) (t : TaskInfo) : TaskInfo :=
  {| ID := ID t; Name := Name t; Description := Description t; CronExpr := CronExpr t;
     Command := x; Args := Args t; Type_ := Type_ t; Enabled := Enabled t;
     Status := Status t; LastRun := LastRun t; NextRun := NextRun t;
     RunCount := RunCount t; SuccessCount := SuccessCount t;
     FailureCount := FailureCount t; LastResult := LastResult t;
     Metadata := Metadata t; EntryID := EntryID t |}.

Definition setType (x : string) (t : TaskInfo) : TaskInfo :=
  {| ID := ID t; Name := Name t; Description := Description t; CronExpr := CronExpr t;
     Command := Command t; Args := Args t; Type_ := x; Enabled := Enabled t;
     Status := Status t; LastRun := LastRun t; NextRun := NextRun t;
     RunCount := RunCount t; SuccessCount := SuccessCount t;
     FailureCount := FailureCount t; LastResult := LastResult t;
     Metadata := Metadata t; EntryID := EntryID t |}.

Definition setEntry (id next : Z) (t : TaskInfo) : TaskInfo :=
  {| ID := ID t; Name := Name t; Description := Description t; CronExpr := CronExpr t;
     Command := Command t; Args := Args t; Type_ := Type_ t; Enabled := Enabled t;
     Status := Status t; LastRun := LastRun t; NextRun := next;
     RunCount := RunCount t; SuccessCount := SuccessCount t;
     FailureCount := FailureCount t; LastResult := LastResult t;
     Metadata := Metadata t; EntryID := id |}.

(** [args[key].(string)]. *)
Definition stringArg (args : gmap string Value) (key : string) : option string :=
  match args !! key with
  | Some (VString s) => Some s
  | _ => None
  end.

(** [if x, ok := args[key].(string); ok { task.F = x }]. *)
Definition assignIfString (args : gmap string Value) (key : string)
    (set : string -> TaskInfo -> TaskInfo) (t : TaskInfo) : TaskInfo :=
  match stringArg args key with
  | Some x => set x t
  | None => t
  end.

Section WithCron.
Context {C : Type}.
Variable cron : CronLib C.

Local Open Scope st_scope.
Abbreviation M := (St.M (SchedulerPlugin C)).

(** [*task] for the task stored under [id]. *)
Definition updateTask (id : string) (f : TaskInfo -> TaskInfo) : M unit :=
  St.modify (fun p => {| scheduler := scheduler p; tasks := alter f id (tasks p) |}).

(** [addToScheduler(task)] for the task stored under [id]. The
    function fired by the scheduler is named by the task's id. *)
Definition addToScheduler (id : string) : M (option error) := fun p =>
  match tasks p !! id with
  | None => (None, p)
  | Some task =>
      match AddFunc cron (scheduler p) (CronExpr task) id with
      | inl e => (Some e, p)
      | inr (entryID, c) =>
          (None, {| scheduler := c;
                    tasks := <[id := setEntry entryID (EntryNext cron c entryID) task]>
                               (tasks p) |})
      end
  end.

Definition removeEntry (entryID : Z) : M unit :=
  St.modify (fun p => {| scheduler := Remove cron (scheduler p) entryID;
                         tasks := tasks p |}).

Definition updated (id : string) : Value :=
  VMap [("id", VString id); ("message", VString "Task updated successfully")].

(** [handleUpdateTask]. The task is reached through a pointer, so
    each assignment is a change of the stored task at once. *)
Definition handleUpdateTask (args : gmap string Value) : M (Value * option error) :=
  match stringArg args "id" with
  | None => St.ret (VNil, Some (ErrNew "id is required"))
  | Some id =>
      let* p := St.get in
      match tasks p !! id with
      | None => St.ret (VNil, Some (ErrNew "task not found"))
      | Some _ =>
          let* _ := updateTask id (assignIfString args "name" setName) in
          let* _ := updateTask id (assignIfString args "description" setDescription) in
          let* bad :=
            match stringArg args "cron_expr" with
            | Some cronExpr =>
                match ParseStandard cron cronExpr with
                | Some e => St.ret (Some e)
                | None =>
                    let* _ := updateTask id (setCronExpr cronExpr) in
                    St.ret None
                end
            | None => St.ret None
            end in
          match bad with
          | Some e =>
              St.ret (VNil, Some (ErrNew ("invalid cron expression: " +:+ errorText e)))
          | None =>
              let* _ := updateTask id (assignIfString args "command" setCommand) in
              let* _ := updateTask id (assignIfString args "type" setType) in
              let* p := St.get in
              match tasks p !! id with
              | Some task =>
                  if Enabled task && negb (EntryID task =? 0)
                  then
                    let* _ := removeEntry (EntryID task) in
                    let* e := addToScheduler id in
                    match e with
                    | Some e => St.ret (VNil, Some e)
                    | None => St.ret (updated id, None)
                    end
                  else St.ret (updated id, None)
              | None => St.ret (updated id, None)
              end
          end
      end
  end.

End WithCron.

(** *** The other handlers *)

Definition ErrInvalidCommand : error := ErrNew "invalid command".

(** What a handler hands back as [interface{}]. *)
Inductive Reply :=
| ReplyValue (v : Value)
| ReplyTask (t : TaskInfo)
| ReplyTasks (l : list TaskInfo)
| ReplyNextRuns (m : gmap string Z).

Definition setArgs (x : list string) (t : TaskInfo) : TaskInfo :=
  {| ID := ID t; Name := Name t; Description := Description t; CronExpr := CronExpr t;
     Command := Command t; Args := x; Type_ := Type_ t; Enabled := Enabled t;
     Status := Status t; LastRun := LastRun t; NextRun := NextRun t;
     RunCount := RunCount t; SuccessCount := SuccessCount t;
     FailureCount := FailureCount t; LastResult := LastResult t;
     Metadata := Metadata t; EntryID := EntryID t |}.

(** [task.Enabled = true; task.Status = "active"]. *)
Definition enabled (t : TaskInfo) : TaskInfo :=
  {| ID := ID t; Name := Name t; Description := Description t; CronExpr := CronExpr t;
     Command := Command t; Args := Args t; Type_ := Type_ t; Enabled := true;
     Status := "active"; LastRun := LastRun t; NextRun := NextRun t;
     RunCount := RunCount t; SuccessCount := SuccessCount t;
     FailureCount := FailureCount t; LastResult := LastResult t;
     Metadata := Metadata t; EntryID := EntryID t |}.

(** [task.Enabled = false; task.Status = "paused"], and
    [task.EntryID = 0] (which it already is when no entry is held). *)
Definition disabled (t : TaskInfo) : TaskInfo :=
  {| ID := ID t; Name := Name t; Description := Description t; CronExpr := CronExpr t;
     Command := Command t; Args := Args t; Type_ := Type_ t; Enabled := false;
     Status := "paused"; LastRun := LastRun t; NextRun := NextRun t;
     RunCount := RunCount t; SuccessCount := SuccessCount t;
     FailureCount := FailureCount t; LastResult := LastResult t;
     Metadata := Metadata t; EntryID := 0 |}.

(** The bookkeeping of one run: [LastRun], the counters (64-bit), the
    result, and the next fire time when the task holds an entry. *)
Definition ran (start : Z) (ok : bool) (result : TaskResult) (next : option Z)
    (t : TaskInfo) : TaskInfo :=
  {| ID := ID t; Name := Name t; Description := Description t; CronExpr := CronExpr t;
     Command := Command t; Args := Args t; Type_ := Type_ t; Enabled := Enabled t;
     Status := Status t; LastRun := start;
     NextRun := match next with Some n => n | None => NextRun t end;
     RunCount := wrap64 (RunCount t + 1);
     SuccessCount := if ok then wrap64 (SuccessCount t + 1) else SuccessCount t;
     FailureCount := if ok then FailureCount t else wrap64 (FailureCount t + 1);
     LastResult := Some result;
     Metadata := Metadata t; EntryID := EntryID t |}.

(** [args[key].(bool)], false when absent or of another type. *)
Definition boolArg (args : gmap string Value) (key : string) : bool :=
  match args !! key with
  | Some (VBool b) => b
  | _ => false
  end.

(** The strings among the elements of a [[]interface{}]. *)
Definition stringsOf (l : list Value) : list string :=
  omap (fun v => match v with VString x => Some x | _ => None end) l.

(** The task [handleAddTask] builds. *)
Definition newTask (taskID name description cronExpr command taskType : string)
    (on : bool) : TaskInfo :=
  {| ID := taskID; Name := name; Description := description; CronExpr := cronExpr;
     Command := command; Args := []; Type_ := taskType; Enabled := on;
     Status := "active"; LastRun := zeroTime; NextRun := zeroTime;
     RunCount := 0; SuccessCount := 0; FailureCount := 0; LastResult := None;
     Metadata := ∅; EntryID := 0 |}.

Definition message (id text : string) : Reply :=
  ReplyValue (VMap [("id", VString id); ("message", VString text)]).

(** A [*TaskResult] as a value; times and the duration are in
    nanoseconds. *)
Definition resultValue (r : option TaskResult) : Value :=
  match r with
  | None => VNil
  | Some r =>
      VMap [("start_time", VInt (RStartTime r)); ("end_time", VInt (REndTime r));
            ("duration", VInt (RDuration r)); ("exit_code", VInt (RExitCode r));
            ("output", VString (ROutput r)); ("error", VString (RError r));
            ("success", VBool (RSuccess r))]
  end.

(** A notification sent upstream through the agent. *)
Record Notice := {
  eventType : string;
  data : list (string * Value)
}.

Section MoreHandlers.
Context {C : Type}.
Variable cron : CronLib C.

Local Open Scope st_scope.

(** [handleAddTask]; [taskID] is what [generateID] makes of the clock. *)
Definition handleAddTask (taskID : string) (args : gmap string Value)
    : St.M (SchedulerPlugin C) (Reply * option error) :=
  match stringArg args "name" with
  | None => St.ret (ReplyValue VNil, Some (ErrNew "name is required"))
  | Some name =>
      match stringArg args "cron_expr" with
      | None => St.ret (ReplyValue VNil, Some (ErrNew "cron_expr is required"))
      | Some cronExpr =>
          match stringArg args "command" with
          | None => St.ret (ReplyValue VNil, Some (ErrNew "command is required"))
          | Some command =>
              let description := default "" (stringArg args "description") in
              let taskType := default "" (stringArg args "type") in
              let taskType := if decide (taskType = "") then "shell" else taskType in
              let on := boolArg args "enabled" in
              match ParseStandard cron cronExpr with
              | Some e =>
                  St.ret (ReplyValue VNil,
                          Some (ErrNew ("invalid cron expression: " +:+ errorText e)))
              | None =>
                  let task := newTask taskID name description cronExpr command taskType on in
                  let task := match args !! "args" with
                              | Some (VList l) => setArgs (stringsOf l) task
                              | _ => task
                              end in
                  let* _ := St.modify (fun p =>
                              {| scheduler := scheduler p;
                                 tasks := <[taskID := task]> (tasks p) |}) in
                  if Enabled task
                  then
                    let* e := addToScheduler cron taskID in
                    match e with
                    | Some e => St.ret (ReplyValue VNil, Some e)
                    | None =>
                        St.ret (ReplyValue (VMap [("id", VString taskID);
                                                  ("name", VString name);
                                                  ("message", VString "Task added successfully")]),
                                None)
                    end
                  else
                    St.ret (ReplyValue (VMap [("id", VString taskID);
                                              ("name", VString name);
                                              ("message", VString "Task added successfully")]),
                            None)
              end
          end
      end
  end.

Definition handleRemoveTask (args : gmap string Value)
    : St.M (SchedulerPlugin C) (Reply * option error) :=
  match stringArg args "id" with
  | None => St.ret (ReplyValue VNil, Some (ErrNew "id is required"))
  | Some id =>
      let* p := St.get in
      match tasks p !! id with
      | None => St.ret (ReplyValue VNil, Some (ErrNew "task not found"))
      | Some task =>
          let* _ := (if EntryID task =? 0 then St.ret tt
                     else removeEntry cron (EntryID task)) in
          let* _ := St.modify (fun p => {| scheduler := scheduler p;
                                           tasks := delete id (tasks p) |}) in
          St.ret (message id "Task removed successfully", None)
      end
  end.

Definition handleEnableTask (args : gmap string Value)
    : St.M (SchedulerPlugin C) (Reply * option error) :=
  match stringArg args "id" with
  | None => St.ret (ReplyValue VNil, Some (ErrNew "id is required"))
  | Some id =>
      let* p := St.get in
      match tasks p !! id with
      | None => St.ret (ReplyValue VNil, Some (ErrNew "task not found"))
      | Some task =>
          if Enabled task
          then St.ret (message id "Task enabled successfully", None)
          else
            let* _ := updateTask id enabled in
            let* e := addToScheduler cron id in
            match e with
            | Some e => St.ret (ReplyValue VNil, Some e)
            | None => St.ret (message id "Task enabled successfully", None)
            end
      end
  end.

Definition handleDisableTask (args : gmap string Value)
    : St.M (SchedulerPlugin C) (Reply * option error) :=
  match stringArg args "id" with
  | None => St.ret (ReplyValue VNil, Some (ErrNew "id is required"))
  | Some id =>
      let* p := St.get in
      match tasks p !! id with
      | None => St.ret (ReplyValue VNil, Some (ErrNew "task not found"))
      | Some task =>
          if Enabled task
          then
            let* _ := (if EntryID task =? 0 then St.ret tt
                       else removeEntry cron (EntryID task)) in
            let* _ := updateTask id disabled in
            St.ret (message id "Task disabled successfully", None)
          else St.ret (message id "Task disabled successfully", None)
      end
  end.

(** [handleRunTask] starts [executeTask] on a goroutine of its own and
    answers at once; the run itself is [executeTask] below. *)
Definition handleRunTask (args : gmap string Value)
    : St.M (SchedulerPlugin C) (Reply * option error) :=
  match stringArg args "id" with
  | None => St.ret (ReplyValue VNil, Some (ErrNew "id is required"))
  | Some id =>
      let* p := St.get in
      match tasks p !! id with
      | None => St.ret (ReplyValue VNil, Some (ErrNew "task not found"))
      | Some _ => St.ret (message id "Task execution started", None)
      end
  end.

(** [handleListTasks]; Go leaves the order of the list open, here it is
    the order of the table. *)
Definition handleListTasks (args : gmap string Value)
    : St.M (SchedulerPlugin C) (Reply * option error) :=
  let* p := St.get in
  St.ret (ReplyTasks (map_to_list (tasks p)).*2, None).

Definition handleGetTask (args : gmap string Value)
    : St.M (SchedulerPlugin C) (Reply * option error) :=
  match stringArg args "id" with
  | None => St.ret (ReplyValue VNil, Some (ErrNew "id is required"))
  | Some id =>
      let* p := St.get in
      match tasks p !! id with
      | None => St.ret (ReplyValue VNil, Some (ErrNew "task not found"))
      | Some task => St.ret (ReplyTask task, None)
      end
  end.

Definition handleGetTaskStatus (args : gmap string Value)
    : St.M (SchedulerPlugin C) (Reply * option error) :=
  match stringArg args "id" with
  | None => St.ret (ReplyValue VNil, Some (ErrNew "id is required"))
  | Some id =>
      let* p := St.get in
      match tasks p !! id with
      | None => St.ret (ReplyValue VNil, Some (ErrNew "task not found"))
      | Some task =>
          St.ret (ReplyValue (VMap [("id", VString (ID task));
                                    ("name", VString (Name task));
                                    ("status", VString (Status task));
                                    ("enabled", VBool (Enabled task));
                                    ("last_run", VInt (LastRun task));
                                    ("next_run", VInt (NextRun task));
                                    ("run_count", VInt (RunCount task));
                                    ("success_count", VInt (SuccessCount task));
                                    ("failure_count", VInt (FailureCount task));
                                    ("last_result", resultValue (LastResult task))]),
                  None)
      end
  end.

Definition handleGetNextRuns (args : gmap string Value)
    : St.M (SchedulerPlugin C) (Reply * option error) :=
  let* p := St.get in
  St.ret (ReplyNextRuns
            (list_to_map
               (omap (fun kt : string * TaskInfo =>
                        if Enabled kt.2 && negb (EntryID kt.2 =? 0)
                        then Some (ID kt.2, EntryNext cron (scheduler p) (EntryID kt.2))
                        else None)
                     (map_to_list (tasks p)))),
          None).

Definition HandleCommand (taskID : string) (command : string) (args : gmap string Value)
    : St.M (SchedulerPlugin C) (Reply * option error) :=
  if decide (command = "add_task") then handleAddTask taskID args
  else if decide (command = "update_task") then
    let* r := handleUpdateTask cron args in St.ret (ReplyValue r.1, r.2)
  else if decide (command = "remove_task") then handleRemoveTask args
  else if decide (command = "enable_task") then handleEnableTask args
  else if decide (command = "disable_task") then handleDisableTask args
  else if decide (command = "run_task") then handleRunTask args
  else if decide (command = "list_tasks") then handleListTasks args
  else if decide (command = "get_task") then handleGetTask args
  else if decide (command = "get_task_status") then handleGetTaskStatus args
  else if decide (command = "get_next_runs") then handleGetNextRuns args
  else St.ret (ReplyValue VNil, Some ErrInvalidCommand).

(** [executeTask] for the task stored under [id]. [start] and [stop]
    are the two readings of the clock and [outcome] is what the agent's
    [ExecuteCommand] returned for the task's command. The notices sent
    upstream are returned, oldest first. *)
Definition executeTask (id : string) (start stop : Z) (outcome : error + string)
    : St.M (SchedulerPlugin C) (list Notice) := fun p =>
  match tasks p !! id with
  | None => ([], p)
  | Some task =>
      let duration := StateStore.Sub stop start in
      let started :=
        {| eventType := "task_started";
           data := [("task_id", VString (ID task)); ("name", VString (Name task));
                    ("start_time", VInt start)] |} in
      let result :=
        match outcome with
        | inl e => {| RStartTime := start; REndTime := stop; RDuration := duration;
                      RExitCode := -1; ROutput := ""; RError := errorText e;
                      RSuccess := false |}
        | inr output => {| RStartTime := start; REndTime := stop; RDuration := duration;
                           RExitCode := 0; ROutput := output; RError := "";
                           RSuccess := true |}
        end in
      let finished :=
        match outcome with
        | inl e =>
            {| eventType := "task_failed";
               data := [("task_id", VString (ID task)); ("name", VString (Name task));
                        ("error", VString (errorText e)); ("duration", VInt duration)] |}
        | inr output =>
            {| eventType := "task_completed";
               data := [("task_id", VString (ID task)); ("name", VString (Name task));
                        ("output", VString output); ("duration", VInt duration)] |}
        end in
      let next := if EntryID task =? 0 then None
                  else Some (EntryNext cron (scheduler p) (EntryID task)) in
      ([started; finished],
       {| scheduler := scheduler p;
          tasks := <[id := ran start (RSuccess result) result next task]> (tasks p) |})
  end.

(** [restoreEnabledTasks], visiting the table in the order [ids]: an
    enabled task is added to the scheduler; a failure is only logged. *)
Fixpoint restoreEnabledTasks (ids : list string) : St.M (SchedulerPlugin C) unit :=
  match ids with
  | [] => St.ret tt
  | id :: rest =>
      let* p := St.get in
      let* _ := match tasks p !! id with
                | Some task =>
                    if Enabled task
                    then let* _ := addToScheduler cron id in St.ret tt
                    else St.ret tt
                | None => St.ret tt
                end in
      restoreEnabledTasks rest
  end.

End MoreHandlers.

(** What can happen to the plugin: a command, a run of a task, the
    restoring of entries at [Start]. *)
Inductive Action :=
| ACommand (taskID command : string) (args : gmap string Value)
| AExecute (id : string) (start stop : Z) (outcome : error + string)
| ARestore (ids : list string).

Definition act {C} (cron : CronLib C) (a : Action) (p : SchedulerPlugin C)
    : SchedulerPlugin C :=
  match a with
  | ACommand taskID command args => (HandleCommand cron taskID command args p).2
  | AExecute id start stop outcome => (executeTask cron id start stop outcome p).2
  | ARestore ids => (restoreEnabledTasks cron ids p).2
  end.

(** A task is stored under its own id, holds no scheduler entry while
    it is disabled, and has as many runs as successes and failures
    together (the counters are 64-bit, so: up to a multiple of 2^64). *)
Definition ok (id : string) (t : TaskInfo) : Prop :=
  ID t = id
  /\ (Enabled t = false -> EntryID t = 0)
  /\ (RunCount t - SuccessCount t - FailureCount t) mod 2^64 = 0.

Definition tidy {C} (p : SchedulerPlugin C) : Prop :=
  forall id t, tasks p !! id = Some t -> ok id t.

(** A computation keeps the plugin tidy. *)
Definition keepsT {C A} (c : St.M (SchedulerPlugin C) A) : Prop :=
  forall p, tidy p -> tidy (c p).2.

(** The plugin as [NewSchedulerPlugin] makes it, and what actions
    make of it. Ids are given out by [generateID], so an [add_task]
    is told its id. *)
Inductive reachable {C} (cron : CronLib C) : SchedulerPlugin C -> Prop :=
| reachable_new c : reachable cron {| scheduler := c; tasks := ∅ |}
| reachable_act a p : reachable cron p -> reachable cron (act cron a p).

(** A stand-in for the library in examples: an expression is
    accepted when it has five fields separated by single spaces. *)
Fixpoint countSpaces (s : string) : nat :=
  match s with
  | EmptyString => 0
  | String c rest => (if Ascii.eqb c " " then 1 else 0) + countSpaces rest
  end.

Definition fiveFields : CronLib (list (Z * string)) :=
  {| ParseStandard := fun expr =>
       if Nat.eqb (countSpaces expr) 4 then None
       else Some (ErrNew "expected exactly 5 fields");
     AddFunc := fun c expr job =>
       if Nat.eqb (countSpaces expr) 5
       then inr (1 + Z.of_nat (length c), (1 + Z.of_nat (length c), job) :: c)
       else inl (ErrNew "expected exactly 6 fields");
     Remove := fun c id => filter (fun e => e.1 <> id) c;
     EntryNext := fun _ _ => zeroTime |}.

Definition backupTask : TaskInfo :=
  {| ID := "task_1"; Name := "backup"; Description := "nightly backup";
     CronExpr := "0 2 * * *"; Command := "backup.sh"; Args := []; Type_ := "shell";
     Enabled := false; Status := "active"; LastRun := zeroTime; NextRun := zeroTime;
     RunCount := 0; SuccessCount := 0; FailureCount := 0; LastResult := None;
     Metadata := ∅; EntryID := 0 |}.

Definition onlyBackup : SchedulerPlugin (list (Z * string)) :=
  {| scheduler := []; tasks := {[ "task_1" := backupTask ]} |}.

(** A request to add a disabled task. *)
Definition addReport : gmap string Value :=
  {[ "name" := VString "report"; "cron_expr" := VString "0 6 * * 1";
     "command" := VString "report.sh" ]}.

(** A task that is enabled and holds the scheduler entry 3. *)
Definition syncTask : TaskInfo :=
  {| ID := "task_2"; Name := "sync"; Description := ""; CronExpr := "0 * * * * *";
     Command := "sync.sh"; Args := []; Type_ := "shell"; Enabled := true;
     Status := "active"; LastRun := zeroTime; NextRun := zeroTime;
     RunCount := 4; SuccessCount := 3; FailureCount := 1; LastResult := None;
     Metadata := ∅; EntryID := 3 |}.

Definition onlySync : SchedulerPlugin (list (Z * string)) :=
  {| scheduler := [(3, "task_2")]; tasks := {[ "task_2" := syncTask ]} |}.

(** The request that renames the task and carries a bad expression. *)
Definition renameWithBadCron : gmap string Value :=
  {[ "id" := VString "task_1"; "name" := VString "renamed";
     "cron_expr" := VString "every night" ]}.

End Scheduler.

(** ** internal/heartbeat: the liveness latch *)

Module Heartbeat.

Record Heartbeat := {
  interval : Z;
  lastBeat : Z;
  healthy : bool
}.

(** [New]; [now] is the reading of the clock. *)
Definition New (i : Z) (now : Z) : Heartbeat :=
  {| interval := i; lastBeat := now; healthy := true |}.

Definition Beat (now : Z) (h : Heartbeat) : Heartbeat :=
  {| interval := interval h; lastBeat := now; healthy := true |}.

(** [time.Duration(h.interval*2)*time.Second]: both products are taken
    in 64 bits. *)
Definition allowance (h : Heartbeat) : Z :=
  wrap64 (wrap64 (interval h * 2) * Second).

(** [IsHealthy]: the answer and the heartbeat after the call. *)
Definition IsHealthy (now : Z) (h : Heartbeat) : bool * Heartbeat :=
  if interval h <=? 0 then (true, h)
  else
    let h' := if allowance h <? StateStore.Since now (lastBeat h)
              then {| interval := interval h; lastBeat := lastBeat h; healthy := false |}
              else h in
    (healthy h', h').

Definition GetLastBeat (h : Heartbeat) : Z := lastBeat h.
Definition GetInterval (h : Heartbeat) : Z := interval h.

Definition Stop (h : Heartbeat) : Heartbeat :=
  {| interval := interval h; lastBeat := lastBeat h; healthy := false |}.

Definition Send (now : Z) (h : Heartbeat) : Heartbeat := Beat now h.

End Heartbeat.

(** * Theorems *)

Module ExecutorProps.
Import Executor.

Ltac unfold_exec :=
  unfold Execute, executeShell, executePowerShell, executeContainer,
    createScriptFile, CombinedOutput, osChmod, osRemove, fileClose,
    ioWriteString, osCreateTemp, timeNow, processKill, emit,
    St.bind, St.ret, St.get, St.modify in *.

Ltac step_exec :=
  match goal with
  | |- context [decide (Type_ ?c = ?t)] => destruct (decide (Type_ c = t))
  | |- context [decide (ContainerID ?c = ?t)] => destruct (decide (ContainerID c = t))
  | |- context [match createTemp ?h ?w ?d ?p with _ => _ end] =>
      destruct (createTemp h w d p) eqn:?
  | |- context [match writeString ?h ?w ?d ?p with _ => _ end] =>
      destruct (writeString h w d p) eqn:?
  | |- context [match chmod ?h ?w ?p with _ => _ end] =>
      destruct (chmod h w p) eqn:?
  end.

Section Paths.
Variable h : Host.
Variable e : Executor.
Variable cmd : Command.

Lemma failed_id r msg : RID (failed r msg) = RID r.
Proof. reflexivity. Qed.

Lemma finished_id r x : RID (finished r x) = RID r.
Proof. unfold finished. destruct (err x); reflexivity. Qed.

Lemma executeShell_id w : RID (executeShell h e cmd w).1 = ID cmd.
Proof.
  unfold_exec; cbn.
  repeat (step_exec; cbn); rewrite ?finished_id; reflexivity.
Qed.

Lemma executePowerShell_id w : RID (executePowerShell h e cmd w).1 = ID cmd.
Proof.
  unfold_exec; cbn.
  repeat (step_exec; cbn); rewrite ?finished_id; reflexivity.
Qed.

Lemma executeContainer_id w : RID (executeContainer h e cmd w).1 = ID cmd.
Proof.
  unfold_exec; cbn.
  repeat (step_exec; cbn); rewrite ?finished_id; reflexivity.
Qed.
End Paths.


(** C3. On every path of [Execute] (each of the three surfaces, an
    unsupported type, a script file that cannot be created, a missing
    container id, a failing or succeeding process) the Result's id is
    the Command's id. *)
Theorem Execute_result_id (h : Host) (e : Executor) (cmd : Command) (w : World) :
  RID (Execute h e cmd w).1 = ID cmd.
Proof.
  unfold Execute, St.bind, St.ret.
  destruct (timeNow h w) as [t w1].
  repeat case_decide.
  - pose proof (executeShell_id h e cmd w1) as Hid.
    destruct (executeShell h e cmd w1) as [r w2]; cbn in *.
    destruct (timeNow h w2); exact Hid.
  - pose proof (executePowerShell_id h e cmd w1) as Hid.
    destruct (executePowerShell h e cmd w1) as [r w2]; cbn in *.
    destruct (timeNow h w2); exact Hid.
  - pose proof (executeContainer_id h e cmd w1) as Hid.
    destruct (executeContainer h e cmd w1) as [r w2]; cbn in *.
    destruct (timeNow h w2); reflexivity || exact Hid.
  - destruct (timeNow h w1); reflexivity.
Qed.


Ltac run_exec :=
  unfold events_of; unfold_exec; cbn;
  repeat (step_exec; cbn);
  rewrite <- ?app_assoc; cbn; rewrite ?drop_app_length; cbn.

(** A call only adds to the trace. *)
Lemma Execute_extends (h : Host) (e : Executor) (cmd : Command) (w : World) :
  (Execute h e cmd w).2 = w ++ events_of (Execute h e cmd) w.
Proof.
  run_exec; unfold withTimeout; repeat case_match; cbn;
    rewrite <- ?app_assoc; cbn; rewrite ?drop_app_length; reflexivity.
Qed.

(** C4. A container Command without a container id is turned down
    with [success = false] and the dedicated message, and between
    entry and return [Execute] does nothing but read the clock: no
    temporary file is created and no process is run. *)
Theorem Execute_container_without_id (h : Host) (e : Executor) (cmd : Command) (w : World) :
  Type_ cmd = CommandTypeContainer ->
  ContainerID cmd = "" ->
  let (r, w') := Execute h e cmd w in
  Success r = false
  /\ Error r = "container ID is required for container commands"
  /\ w' = w ++ [EvNow; EvNow; EvNow]
  /\ spawned (events_of (Execute h e cmd) w) = []
  /\ created (events_of (Execute h e cmd) w) = [].
Proof.
  intros Hty Hid. run_exec; try (rewrite Hty in *; discriminate); try contradiction.
  repeat split; reflexivity.
Qed.

Lemma Execute_container_without_id_witness :
  let cmd := {| ID := "c-2"; Type_ := "container"; Script := "ls"; Args := [];
                WorkingDir := ""; Timeout := 30; ContainerID := ""; User := "";
                Env := [] |} in
  let (r, w') := Execute quietHost someExecutor cmd [] in
  Success r = false
  /\ Error r = "container ID is required for container commands"
  /\ w' = [] ++ [EvNow; EvNow; EvNow]
  /\ spawned (events_of (Execute quietHost someExecutor cmd) []) = []
  /\ created (events_of (Execute quietHost someExecutor cmd) []) = [].
Proof.
  intros cmd.
  apply (Execute_container_without_id quietHost someExecutor cmd []); reflexivity.
Defined.

(** C9. [StopCommand] on an id that is not in the in-flight registry
    returns a nil error, leaves the registry as it was and kills
    nothing. *)
Theorem StopCommand_absent (h : Host) (e : Executor) (id : string) (w : World) :
  running e !! id = None ->
  StopCommand h e id w = ((None, e), w).
Proof.
  intros Hnone. unfold StopCommand. rewrite Hnone. reflexivity.
Qed.

Lemma StopCommand_absent_witness :
  StopCommand quietHost someExecutor "c-404" [] = ((None, someExecutor), []).
Proof.
  apply (StopCommand_absent quietHost someExecutor "c-404" []). reflexivity.
Defined.


Lemma withTimeout_unbounded (h : Host) (cmd : Command) (c : Cmd) :
  Timeout cmd <= 0 -> withTimeout h cmd c = c.
Proof.
  intros Hle. unfold withTimeout.
  destruct (Z.ltb_spec 0 (Timeout cmd)); [lia | reflexivity].
Qed.

(** With a positive timeout the Cmd that runs is a new one: it has the
    path and the arguments of the one prepared before, and neither its
    [Env] nor its [Dir]. *)
Lemma withTimeout_bounded (h : Host) (cmd : Command) (c : Cmd) :
  0 < Timeout cmd ->
  CEnv (withTimeout h cmd c) = None /\ Dir (withTimeout h cmd c) = "".
Proof.
  intros Hlt. unfold withTimeout.
  destruct (Z.ltb_spec 0 (Timeout cmd)); [split; reflexivity | lia].
Qed.

(** C1, as stated, fails: a container Command with one env entry
    starts [docker] with the ambient environment only. *)
Lemma env_not_appended_for_container : ~ env_appended_on_every_surface.
Proof.
  intros Hall.
  pose (cmd := printenvCommand "container" 0).
  pose (c := {| Path := "/usr/bin/docker";
                CArgs := ["docker"; "exec"; "-e"; "GREETING=hello"; "web-1"; "bash";
                          "/tmp/script_1"];
                CEnv := None; Dir := ""; Deadline := None |}).
  specialize (Hall quietHost someExecutor cmd [] c).
  assert (Hsup : supported cmd) by (right; right; reflexivity).
  assert (Hin : c ∈ spawned (events_of (Execute quietHost someExecutor cmd) []))
    by (vm_compute; apply list_elem_of_here).
  specialize (Hall Hsup Hin). vm_compute in Hall. discriminate Hall.
Qed.

(** The same happens on the shell surface once the timeout is
    positive: the rebuilt Cmd runs with the ambient environment and in
    the agent's own directory. *)
Lemma env_dropped_under_timeout :
  spawned (events_of (Execute quietHost someExecutor (printenvCommand "shell" 5)) [])
  = [ {| Path := "/usr/bin/bash"; CArgs := ["/usr/bin/bash"; "/tmp/script_1"];
         CEnv := None; Dir := ""; Deadline := Some (5 * Second) |} ].
Proof. vm_compute. reflexivity. Qed.

(** C1, amended. On the shell and script-host surfaces with no
    timeout, the process starts with the ambient environment followed
    by the Command's env entries. On the container surface the
    [docker] client starts with the ambient environment, and the env
    entries travel as [-e] arguments of [docker exec]. *)
Theorem Execute_env_by_surface (h : Host) (e : Executor) (cmd : Command) (w : World) (c : Cmd) :
  c ∈ spawned (events_of (Execute h e cmd) w) ->
  (Type_ cmd = CommandTypeShell \/ Type_ cmd = CommandTypePowerShell ->
   Timeout cmd <= 0 ->
   processEnv h c = environ h ++ Env cmd)
  /\ (Type_ cmd = CommandTypeContainer ->
      processEnv h c = environ h
      /\ exists arg0 scriptFile, CArgs c = arg0 :: dockerArgs cmd scriptFile).
Proof.
  run_exec.
  all: intros Hc.
  all: try (by apply elem_of_nil in Hc).
  all: apply list_elem_of_singleton in Hc; subst c.
  all: split; [intros Hty Hle | intros Hty].
  all: try (destruct Hty as [Hty | Hty]).
  all: try (exfalso;
            unfold CommandTypeShell, CommandTypePowerShell, CommandTypeContainer in *;
            congruence).
  - rewrite withTimeout_unbounded by lia. reflexivity.
  - rewrite withTimeout_unbounded by lia. reflexivity.
  - unfold withTimeout, processEnv.
    destruct (0 <? Timeout cmd); cbn; split; eauto.
Qed.

Lemma Execute_env_by_surface_witness :
  let cmd := printenvCommand "shell" 0 in
  let c := {| Path := "/usr/bin/bash"; CArgs := ["bash"; "/tmp/script_1"];
              CEnv := Some ["PATH=/usr/bin"; "HOME=/root"; "GREETING=hello"];
              Dir := "/var/agent/work"; Deadline := None |} in
  (Type_ cmd = CommandTypeShell \/ Type_ cmd = CommandTypePowerShell ->
   Timeout cmd <= 0 ->
   processEnv quietHost c = environ quietHost ++ Env cmd)
  /\ (Type_ cmd = CommandTypeContainer ->
      processEnv quietHost c = environ quietHost
      /\ exists arg0 scriptFile, CArgs c = arg0 :: dockerArgs cmd scriptFile).
Proof.
  intros cmd c.
  apply (Execute_env_by_surface quietHost someExecutor cmd [] c).
  vm_compute. apply list_elem_of_here.
Defined.


(** *** More on [Execute] *)

(** X1. A type other than the three surfaces: the Result fails with the
    type in its message and an exit code of 0, and the call only reads
    the clock, twice. *)
Theorem Execute_unsupported (h : Host) (e : Executor) (cmd : Command) (w : World) :
  ~ supported cmd ->
  let (r, w') := Execute h e cmd w in
  Success r = false
  /\ Error r = "unsupported command type: " +:+ Type_ cmd
  /\ ExitCode r = 0
  /\ Output r = ""
  /\ w' = w ++ [EvNow; EvNow].
Proof.
  intros Hno. unfold supported in Hno.
  run_exec; first [tauto | repeat split; reflexivity].
Qed.

Lemma Execute_unsupported_witness :
  let cmd := printenvCommand "python" 0 in
  let (r, w') := Execute quietHost someExecutor cmd [] in
  Success r = false
  /\ Error r = "unsupported command type: " +:+ Type_ cmd
  /\ ExitCode r = 0
  /\ Output r = ""
  /\ w' = [] ++ [EvNow; EvNow].
Proof.
  intros cmd. apply (Execute_unsupported quietHost someExecutor cmd []).
  unfold supported. vm_compute. intros [H|[H|H]]; discriminate H.
Defined.

(** X2. On every path of [Execute] the script files that were written are
    the files that are removed, one removal each: no temporary file
    outlives the call and nothing else is deleted. *)
Theorem Execute_removes_its_script (h : Host) (e : Executor) (cmd : Command) (w : World) :
  removed (events_of (Execute h e cmd) w) = written (events_of (Execute h e cmd) w).
Proof. run_exec; reflexivity. Qed.

(** X3. [Execute] starts at most one process, and a successful Result
    means that one process ran, that [CombinedOutput] reported no
    error, and that the exit code is 0. *)
Theorem Execute_one_process (h : Host) (e : Executor) (cmd : Command) (w : World) :
  (length (spawned (events_of (Execute h e cmd) w)) <= 1)%nat
  /\ (Success (Execute h e cmd w).1 = true ->
      length (spawned (events_of (Execute h e cmd) w)) = 1%nat
      /\ ExitCode (Execute h e cmd w).1 = 0).
Proof.
  run_exec; (split; [lia|]); cbn; try discriminate.
  all: unfold finished; case_match; cbn; try discriminate; intros _; split; reflexivity.
Qed.

Lemma Execute_one_process_witness :
  let cmd := printenvCommand "shell" 0 in
  length (spawned (events_of (Execute quietHost someExecutor cmd) [])) = 1%nat
  /\ ExitCode (Execute quietHost someExecutor cmd []).1 = 0.
Proof.
  intros cmd. apply (Execute_one_process quietHost someExecutor cmd []). reflexivity.
Defined.

Lemma wrap64_seconds (t : Z) :
  0 < t <= 9223372036 -> wrap64 (t * Second) = t * Second.
Proof.
  intros Ht. unfold wrap64, Second.
  change (2 ^ 63) with 9223372036854775808.
  change (2 ^ 64) with 18446744073709551616.
  rewrite Z.mod_small by lia. lia.
Qed.

(** X4. The bound on a started process: none when the timeout is zero or
    negative; the timeout in seconds when it is positive and its
    nanoseconds fit in an [int64]. *)
Theorem Execute_deadline (h : Host) (e : Executor) (cmd : Command) (w : World) (c : Cmd) :
  c ∈ spawned (events_of (Execute h e cmd) w) ->
  (Timeout cmd <= 0 -> Deadline c = None)
  /\ (0 < Timeout cmd <= 9223372036 -> Deadline c = Some (Timeout cmd * Second)).
Proof.
  run_exec.
  all: intros Hc.
  all: try (by apply elem_of_nil in Hc).
  all: apply list_elem_of_singleton in Hc; subst c.
  all: unfold withTimeout; destruct (Z.ltb_spec 0 (Timeout cmd)); cbn.
  all: split; intros Ht; try lia; try reflexivity.
  all: by rewrite wrap64_seconds.
Qed.

Lemma Execute_deadline_witness :
  let cmd := printenvCommand "shell" 5 in
  let c := {| Path := "/usr/bin/bash"; CArgs := ["/usr/bin/bash"; "/tmp/script_1"];
              CEnv := None; Dir := ""; Deadline := Some (5 * Second) |} in
  (Timeout cmd <= 0 -> Deadline c = None)
  /\ (0 < Timeout cmd <= 9223372036 -> Deadline c = Some (Timeout cmd * Second)).
Proof.
  intros cmd c. apply (Execute_deadline quietHost someExecutor cmd [] c).
  vm_compute. apply list_elem_of_here.
Defined.

(** X5. Without a timeout, a shell or script-host process starts in the
    Command's working directory, or in the executor's own when the
    Command names none. *)
Theorem Execute_working_dir (h : Host) (e : Executor) (cmd : Command) (w : World) (c : Cmd) :
  Type_ cmd = CommandTypeShell \/ Type_ cmd = CommandTypePowerShell ->
  Timeout cmd <= 0 ->
  c ∈ spawned (events_of (Execute h e cmd) w) ->
  (WorkingDir cmd = "" -> Dir c = workDir e)
  /\ (WorkingDir cmd <> "" -> Dir c = WorkingDir cmd).
Proof.
  intros Hty Hle. run_exec.
  all: intros Hc.
  all: try (by apply elem_of_nil in Hc).
  all: apply list_elem_of_singleton in Hc; subst c.
  all: try (exfalso; destruct Hty as [Hty|Hty];
            unfold CommandTypeShell, CommandTypePowerShell, CommandTypeContainer in *;
            congruence).
  all: rewrite withTimeout_unbounded by lia; cbn; unfold workingDirOf.
  all: case_decide; split; intros; congruence.
Qed.

Lemma Execute_working_dir_witness :
  let cmd := printenvCommand "shell" 0 in
  let c := {| Path := "/usr/bin/bash"; CArgs := ["bash"; "/tmp/script_1"];
              CEnv := Some ["PATH=/usr/bin"; "HOME=/root"; "GREETING=hello"];
              Dir := "/var/agent/work"; Deadline := None |} in
  (WorkingDir cmd = "" -> Dir c = workDir someExecutor)
  /\ (WorkingDir cmd <> "" -> Dir c = WorkingDir cmd).
Proof.
  intros cmd c.
  apply (Execute_working_dir quietHost someExecutor cmd [] c);
    [left; reflexivity | vm_compute; discriminate | vm_compute; apply list_elem_of_here].
Defined.

(** *** The registry of commands in flight *)

Lemma ListRunningCommands_elem (e : Executor) (id : string) :
  id ∈ ListRunningCommands e <-> is_Some (running e !! id).
Proof.
  unfold ListRunningCommands. rewrite list_elem_of_fmap. split.
  - intros ([k c] & -> & Hin). apply elem_of_map_to_list in Hin. eauto.
  - intros [c Hc]. exists (id, c). split; [reflexivity|]. by apply elem_of_map_to_list.
Qed.



Lemma killed_EvKill (pids : list nat) : killed (EvKill <$> pids) = pids.
Proof. induction pids as [|p pids IH]; cbn; [reflexivity | by f_equal]. Qed.

Lemma omap_agree {A B} (f g : A -> option B) (l : list A) :
  (forall x, x ∈ l -> f x = g x) -> omap f l = omap g l.
Proof.
  induction l as [|x l IH]; intros Hfg; cbn; [reflexivity|].
  rewrite (Hfg x) by left. rewrite IH; [reflexivity|].
  intros y Hy. apply Hfg. by right.
Qed.

Lemma Stop_lookup (h : Host) (ids : list string) :
  forall (e : Executor) (w : World) (k : string),
    running (Stop h ids e w).1 !! k = if decide (k ∈ ids) then None else running e !! k.
Proof.
  induction ids as [|id ids IH]; intros e w k; cbn.
  - case_decide as Hk; [by apply elem_of_nil in Hk | reflexivity].
  - destruct (running e !! id) as [cmd|] eqn:Hid.
    + unfold St.bind. destruct (match Process cmd with _ => _ end w) as [r w1].
      rewrite IH. cbn.
      destruct (decide (k ∈ ids)) as [Hk|Hk].
      * rewrite decide_True by (by right). reflexivity.
      * destruct (decide (k = id)) as [->|Hne].
        -- rewrite decide_True by left. by rewrite lookup_delete_eq.
        -- rewrite decide_False by (intros [?|?]%elem_of_cons; done).
           by rewrite lookup_delete_ne.
    + rewrite IH. destruct (decide (k ∈ ids)) as [Hk|Hk].
      * rewrite decide_True by (by right). reflexivity.
      * destruct (decide (k = id)) as [->|Hne].
        -- rewrite decide_True by left. by rewrite Hid.
        -- rewrite decide_False by (intros [?|?]%elem_of_cons; done). reflexivity.
Qed.

Lemma Stop_trace (h : Host) (ids : list string) :
  forall (e : Executor) (w : World),
    NoDup ids ->
    (Stop h ids e w).2 = w ++ (EvKill <$> omap (pidOf e) ids).
Proof.
  induction ids as [|id ids IH]; intros e w Hnd; cbn.
  - by rewrite app_nil_r.
  - apply NoDup_cons in Hnd as [Hfresh Hnd]. unfold pidOf at 1.
    destruct (running e !! id) as [cmd|] eqn:Hid; cbn.
    + assert (Hrest : omap (pidOf {| workDir := workDir e; tempDir := tempDir e;
                                      running := delete id (running e) |}) ids
                      = omap (pidOf e) ids).
      { apply omap_agree. intros x Hx. unfold pidOf. cbn.
        rewrite lookup_delete_ne; [reflexivity|]. intros ->. contradiction. }
      unfold St.bind. destruct (Process cmd) as [pid|]; cbn.
      * rewrite IH by assumption. rewrite Hrest. by rewrite <- app_assoc.
      * rewrite IH by assumption. by rewrite Hrest.
    + by apply IH.
Qed.

(** X7. [Stop] visiting the registry's ids in any order: no command is
    listed afterwards, and the processes killed are those of the
    registered commands that had one, in the order of the visit. *)
Theorem Stop_empties_registry (h : Host) (e : Executor) (ids : list string) (w : World) :
  ids ≡ₚ ListRunningCommands e ->
  ListRunningCommands (Stop h ids e w).1 = []
  /\ killed (events_of (Stop h ids e) w) = omap (pidOf e) ids.
Proof.
  intros Hperm. split.
  - assert (Hempty : running (Stop h ids e w).1 = ∅).
    { apply map_eq. intros k. rewrite Stop_lookup, lookup_empty.
      case_decide as Hk; [reflexivity|].
      destruct (running e !! k) eqn:Hlook; [|reflexivity].
      exfalso. apply Hk. rewrite Hperm. apply ListRunningCommands_elem. eauto. }
    unfold ListRunningCommands. rewrite Hempty. by rewrite map_to_list_empty.
  - unfold events_of. rewrite Stop_trace.
    + rewrite drop_app_length. apply killed_EvKill.
    + rewrite Hperm. unfold ListRunningCommands. apply NoDup_fst_map_to_list.
Qed.

Lemma Stop_empties_registry_witness :
  ListRunningCommands (Stop quietHost ["c-8"; "c-7"] busyExecutor []).1 = []
  /\ killed (events_of (Stop quietHost ["c-8"; "c-7"] busyExecutor) []) = [4711%nat].
Proof.
  apply (Stop_empties_registry quietHost busyExecutor ["c-8"; "c-7"] []).
  vm_compute. first [reflexivity | apply perm_swap].
Defined.
End ExecutorProps.

Module PluginManagerProps.
Import PluginManager.

Ltac unfold_bk :=
  unfold Bk.bind, Bk.ret, Bk.get, Bk.modify, Lock, Unlock, RLock, RUnlock,
    invoke, newStatus, markStatus, markStartTime, setMu, setPlugins, setObjs in *.

Section Dispatch.
Context {P : Type}.
Implicit Types m : Manager P.

(** C5. [SendCommand] and [SendEvent], called while no writer holds
    the registry: an unknown name gives "plugin not found"; a
    registered instance whose status is not ["running"] gives
    "plugin not started", and in both cases nothing changes;
    otherwise the plugin's handler runs once, on the current store,
    and what it returns is what the caller gets. *)
Theorem dispatch_contract m (name : string) :
  writer (mu m) = false ->
  (plugins m !! name = None ->
     (forall command args,
        SendCommand name command args m = Bk.Done (VNil, Some ErrPluginNotFound) m)
     /\ (forall eventType data,
        SendEvent name eventType data m = Bk.Done (Some ErrPluginNotFound) m))
  /\ (forall inst, plugins m !! name = Some inst -> instanceStatus m inst <> "running" ->
     (forall command args,
        SendCommand name command args m = Bk.Done (VNil, Some ErrPluginNotStarted) m)
     /\ (forall eventType data,
        SendEvent name eventType data m = Bk.Done (Some ErrPluginNotStarted) m))
  /\ (forall inst, plugins m !! name = Some inst -> instanceStatus m inst = "running" ->
     (forall command args,
        SendCommand name command args m =
        Bk.Done (HandleCommand (Plugin_ inst) command args (store m)).1
          {| dataDir := dataDir m; plugins := plugins m; mu := mu m;
             store := (HandleCommand (Plugin_ inst) command args (store m)).2;
             calls := calls m ++ [CallHandleCommand (ptr (Plugin_ inst)) command args] |})
     /\ (forall eventType data,
        SendEvent name eventType data m =
        Bk.Done (HandleEvent (Plugin_ inst) eventType data (store m)).1
          {| dataDir := dataDir m; plugins := plugins m; mu := mu m;
             store := (HandleEvent (Plugin_ inst) eventType data (store m)).2;
             calls := calls m ++ [CallHandleEvent (ptr (Plugin_ inst)) eventType data] |})).
Proof.
  destruct m as [dir pl [w r] st cl]; cbn. intros ->.
  unfold SendCommand, SendEvent, instanceStatus, statusAt. unfold_bk. cbn.
  repeat split; intros.
  all: match goal with H : _ !! _ = _ |- _ => rewrite H end; cbn.
  all: try reflexivity.
  all: case_decide; try contradiction; try reflexivity.
  - destruct (HandleCommand _ _ _ _); reflexivity.
  - destruct (HandleEvent _ _ _ _); reflexivity.
Qed.

(** C10, first half, as a lemma of its own: the early return. *)
Lemma StartPlugin_running sys m name inst :
  mu m = unlocked ->
  plugins m !! name = Some inst ->
  instanceStatus m inst = "running" ->
  StartPlugin sys name m = Bk.Done (Some ErrPluginAlreadyStarted) m.
Proof.
  destruct m as [dir pl mx st cl]; cbn. intros -> Hin Hrun.
  unfold StartPlugin, instanceStatus, statusAt in *. unfold_bk. cbn in *.
  rewrite Hin. case_decide; [reflexivity | contradiction].
Qed.

(** X12. Past that early return, on a registered instance that is not
    ["running"], [StartPlugin] does not come back: it holds the
    registry mutex for writing when [LoadPluginConfig] asks for it for
    reading. The registry is left as it was, write-locked. *)
Lemma StartPlugin_parks sys m name inst :
  mu m = unlocked ->
  plugins m !! name = Some inst ->
  instanceStatus m inst <> "running" ->
  StartPlugin sys name m = Bk.Blocked (setMu {| writer := true; readers := 0 |} m).
Proof.
  destruct m as [dir pl mx st cl]; cbn. intros -> Hin Hrun.
  unfold StartPlugin, LoadPluginConfig, instanceStatus, statusAt in *. unfold_bk. cbn in *.
  rewrite Hin. case_decide; [contradiction | reflexivity].
Qed.

Lemma forEach_StartPlugin_running sys m names :
  mu m = unlocked ->
  (forall name, name ∈ names ->
     exists inst, plugins m !! name = Some inst /\ instanceStatus m inst = "running") ->
  forEach (StartPlugin sys) "failed to start plugin " names m =
  Bk.Done (map (fun n => wrapf ("failed to start plugin " +:+ n +:+ ": ")
                            ErrPluginAlreadyStarted) names) m.
Proof.
  intros Hmu. induction names as [|n names IH]; intros Hall; [reflexivity|].
  cbn [forEach map]. unfold Bk.bind at 1.
  destruct (Hall n) as (inst & Hin & Hrun); [left|].
  rewrite (StartPlugin_running sys m n inst Hmu Hin Hrun).
  unfold Bk.bind at 1. rewrite IH; [reflexivity|].
  intros name Hname. apply Hall. by right.
Qed.

(** C10. While the instance is ["running"], [StartPlugin] returns
    "plugin already started" and leaves the registry, the store and
    the log of plugin calls exactly as they were: neither [Init] nor
    [Start] runs and the status stays. Hence [StartAll] over a
    non-empty registry whose instances all run returns the combined
    error, whatever the order in which the names are visited. *)
Theorem StartPlugin_not_idempotent sys m :
  mu m = unlocked ->
  (forall name inst,
     plugins m !! name = Some inst -> instanceStatus m inst = "running" ->
     StartPlugin sys name m = Bk.Done (Some ErrPluginAlreadyStarted) m)
  /\ (forall names,
       names ≡ₚ (map_to_list (plugins m)).*1 ->
       plugins m <> ∅ ->
       (forall name inst, plugins m !! name = Some inst -> instanceStatus m inst = "running") ->
       StartAll sys names m =
       Bk.Done (Some (ErrNew ("failed to start some plugins: " +:+
                  formatErrors (map (fun n => wrapf ("failed to start plugin " +:+ n +:+ ": ")
                                                ErrPluginAlreadyStarted) names)))) m).
Proof.
  intros Hmu. split.
  - intros name inst. by apply StartPlugin_running.
  - intros names Hperm Hne Hall.
    assert (Hin : forall name, name ∈ names ->
              exists inst, plugins m !! name = Some inst /\ instanceStatus m inst = "running").
    { intros name Hname. rewrite Hperm in Hname.
      apply list_elem_of_fmap in Hname as ([k inst] & -> & Hk).
      apply elem_of_map_to_list in Hk. eauto. }
    pose proof (forEach_StartPlugin_running sys m names Hmu Hin) as Hloop.
    unfold StartAll. unfold Bk.bind at 1.
    assert (Hr : RLock m = Bk.Done tt (setMu {| writer := false; readers := 1 |} m)).
    { unfold RLock. rewrite Hmu. reflexivity. }
    rewrite Hr. unfold Bk.bind at 1.
    assert (Hu : RUnlock (setMu {| writer := false; readers := 1 |} m) = Bk.Done tt m).
    { destruct m; cbn in *; subst. reflexivity. }
    rewrite Hu. unfold Bk.bind at 1. rewrite Hloop.
    destruct names as [|n names]; [|reflexivity].
    exfalso. apply Hne. apply map_to_list_empty_iff.
    apply Permutation_nil in Hperm. by apply fmap_nil_inv in Hperm.
Qed.
End Dispatch.

Lemma dispatch_contract_witness :
  SendCommand "test-plugin" "test-command" {[ "arg1" := VString "value1" ]} testManager
  = Bk.Done
      (VMap [("command", VString "test-command");
             ("args", VMap [("arg1", VString "value1")])], None)
      {| dataDir := dataDir testManager; plugins := plugins testManager;
         mu := mu testManager; store := store testManager;
         calls := calls testManager
                  ++ [CallHandleCommand 7 "test-command" {[ "arg1" := VString "value1" ]}] |}.
Proof.
  destruct (dispatch_contract testManager "test-plugin") as (_ & _ & Hrun);
    [reflexivity|].
  destruct (Hrun testInstance) as [Hcmd _]; [reflexivity | reflexivity |].
  rewrite Hcmd. reflexivity.
Defined.

Lemma testManager_plugins : plugins testManager = {[ "test-plugin" := testInstance ]}.
Proof. vm_compute. reflexivity. Qed.

Lemma StartPlugin_not_idempotent_witness :
  StartPlugin testSys "test-plugin" testManager
  = Bk.Done (Some ErrPluginAlreadyStarted) testManager
  /\ StartAll testSys ["test-plugin"] testManager
    = Bk.Done (Some (ErrNew ("failed to start some plugins: "
         +:+ "[failed to start plugin test-plugin: plugin already started]")))
        testManager.
Proof.
  destruct (StartPlugin_not_idempotent testSys testManager) as [Hone Hall];
    [reflexivity|].
  split.
  - apply (Hone "test-plugin" testInstance); reflexivity.
  - apply (Hall ["test-plugin"]).
    + vm_compute. reflexivity.
    + intros Hempty. apply (f_equal (fun pl => pl !! "test-plugin")) in Hempty.
      vm_compute in Hempty. discriminate Hempty.
    + intros name inst. rewrite testManager_plugins.
      intros [_ <-]%lookup_singleton_Some. reflexivity.
Defined.

(** *** The registry is keyed by descriptor name *)

Section Names.
Context {P : Type}.
Implicit Types m : Manager P.

Lemma keeps_ret {A} (a : A) : keeps (Bk.ret (S := Manager P) a).
Proof. intros m Hm. exact Hm. Qed.

Lemma keeps_bind {A B} (c : Bk.M (Manager P) A) (k : A -> Bk.M (Manager P) B) :
  keeps c -> (forall a, keeps (k a)) -> keeps (Bk.bind c k).
Proof.
  intros Hc Hk m Hm. unfold Bk.bind. specialize (Hc m Hm).
  destruct (c m) as [a m'|m']; cbn in *; [by apply Hk | exact Hc].
Qed.

Lemma keeps_same_plugins {A} (c : Bk.M (Manager P) A) :
  (forall m, plugins (Bk.final (c m)) = plugins m) -> keeps c.
Proof. intros Hsame m Hm k inst. rewrite Hsame. apply Hm. Qed.

Lemma keeps_get : keeps (@Bk.get (Manager P)).
Proof. by apply keeps_same_plugins. Qed.

Lemma keeps_Lock : keeps (@Lock P).
Proof.
  apply keeps_same_plugins. intros m. unfold Lock.
  destruct (_ || _); reflexivity.
Qed.

Lemma keeps_RLock : keeps (@RLock P).
Proof.
  apply keeps_same_plugins. intros m. unfold RLock.
  destruct (writer _); reflexivity.
Qed.

Lemma keeps_Unlock : keeps (@Unlock P).
Proof. by apply keeps_same_plugins. Qed.

Lemma keeps_RUnlock : keeps (@RUnlock P).
Proof. by apply keeps_same_plugins. Qed.

Lemma keeps_invoke {A} c (f : Store P -> A * Store P) : keeps (invoke c f).
Proof.
  apply keeps_same_plugins. intros m. unfold invoke.
  destruct (f (store m)); reflexivity.
Qed.

Lemma keeps_newStatus st : keeps (@newStatus P st).
Proof. by apply keeps_same_plugins. Qed.

Lemma keeps_markStatus l s e : keeps (@markStatus P l s e).
Proof. by apply keeps_same_plugins. Qed.

Lemma keeps_markStartTime l t : keeps (@markStartTime P l t).
Proof. by apply keeps_same_plugins. Qed.

(** Assigning a field of an instance other than its plugin. *)
Lemma keeps_alter (f : PluginInstance P -> PluginInstance P) name :
  (forall i, Plugin_ (f i) = Plugin_ i) ->
  keeps (Bk.modify (setPlugins (alter f name))).
Proof.
  intros Hf m Hm k inst. cbn. rewrite lookup_alter.
  case_decide as Hk; [subst k|apply Hm].
  destruct (plugins m !! name) as [i|] eqn:Hi; cbn; [|by intros ?].
  intros [= <-]. rewrite Hf. by apply Hm.
Qed.

Lemma keeps_delete name : keeps (Bk.modify (@setPlugins P (delete name))).
Proof.
  intros m Hm k inst. cbn. rewrite lookup_delete.
  case_decide; [by intros ? | apply Hm].
Qed.

Lemma keeps_insert info inst :
  Info (Plugin_ inst) = Some info ->
  keeps (Bk.modify (@setPlugins P (insert (Name info) inst))).
Proof.
  intros Hinfo m Hm k inst'. cbn. rewrite lookup_insert.
  case_decide as Hk; [|apply Hm].
  intros [= <-]. subst k. eauto.
Qed.

Ltac keeps_step :=
  first
    [ assumption
    | apply keeps_ret | apply keeps_get | apply keeps_Lock | apply keeps_Unlock
    | apply keeps_RLock | apply keeps_RUnlock | apply keeps_invoke
    | apply keeps_newStatus | apply keeps_markStatus | apply keeps_markStartTime
    | apply keeps_delete
    | apply keeps_alter; reflexivity
    | apply keeps_bind; [|intros ?]
    | match goal with
      | |- keeps (match ?x with _ => _ end) => destruct x eqn:?
      end ].

Ltac keeps_all := repeat keeps_step.

Lemma keeps_Register sys (p : Plugin P) : keeps (Register sys p).
Proof.
  unfold Register. keeps_all.
  all: eapply keeps_insert; eassumption.
Qed.

Lemma keeps_Unregister name : keeps (@Unregister P name).
Proof. unfold Unregister. keeps_all. Qed.

Lemma keeps_GetPlugin name : keeps (@GetPlugin P name).
Proof. unfold GetPlugin. keeps_all. Qed.

Lemma keeps_LoadPluginConfig sys name : keeps (@LoadPluginConfig P sys name).
Proof. unfold LoadPluginConfig. keeps_all. Qed.

Lemma keeps_SavePluginConfig sys name : keeps (@SavePluginConfig P sys name).
Proof. unfold SavePluginConfig. keeps_all. Qed.

Lemma keeps_StartPlugin sys name : keeps (@StartPlugin P sys name).
Proof.
  pose proof (keeps_LoadPluginConfig sys name).
  unfold StartPlugin. keeps_all.
Qed.

Lemma keeps_StopPlugin sys name : keeps (@StopPlugin P sys name).
Proof.
  pose proof (keeps_SavePluginConfig sys name).
  unfold StopPlugin. keeps_all.
Qed.

Lemma keeps_forEach op prefix names :
  (forall name, keeps (op name)) -> keeps (@forEach P op prefix names).
Proof.
  intros Hop. induction names as [|n names IH]; cbn [forEach]; keeps_all.
  all: apply Hop.
Qed.

Lemma keeps_StartAll sys names : keeps (@StartAll P sys names).
Proof.
  pose proof (keeps_forEach (StartPlugin sys) "failed to start plugin " names
                (keeps_StartPlugin sys)).
  unfold StartAll. keeps_all.
Qed.

Lemma keeps_StopAll sys names : keeps (@StopAll P sys names).
Proof.
  pose proof (keeps_forEach (StopPlugin sys) "failed to stop plugin " names
                (keeps_StopPlugin sys)).
  unfold StopAll. keeps_all.
Qed.

Lemma keeps_poll name inst : keeps (@poll P name inst).
Proof. unfold poll. keeps_all. Qed.

Lemma keeps_GetPluginStatus name : keeps (@GetPluginStatus P name).
Proof.
  unfold GetPluginStatus. keeps_all. all: apply keeps_poll.
Qed.

Lemma keeps_pollAll names : keeps (@pollAll P names).
Proof.
  induction names as [|n names IH]; cbn [pollAll]; keeps_all.
  all: apply keeps_poll.
Qed.

Lemma keeps_GetAllPluginStatus names : keeps (@GetAllPluginStatus P names).
Proof.
  pose proof (keeps_pollAll names).
  unfold GetAllPluginStatus. keeps_all.
Qed.

Lemma keeps_SendCommand name command args : keeps (@SendCommand P name command args).
Proof. unfold SendCommand. keeps_all. Qed.

Lemma keeps_SendEvent name eventType data : keeps (@SendEvent P name eventType data).
Proof. unfold SendEvent. keeps_all. Qed.

Lemma reachable_names_ok m : reachable m -> names_ok m.
Proof.
  induction 1 as [dir s0 | sys op m Hm IH].
  - intros k inst. cbn. by rewrite lookup_empty.
  - destruct op; cbn [after].
    + by apply keeps_Register.
    + by apply keeps_Unregister.
    + by apply keeps_GetPlugin.
    + by apply keeps_StartPlugin.
    + by apply keeps_StopPlugin.
    + by apply keeps_StartAll.
    + by apply keeps_StopAll.
    + by apply keeps_GetPluginStatus.
    + by apply keeps_GetAllPluginStatus.
    + by apply keeps_SendCommand.
    + by apply keeps_SendEvent.
    + by apply keeps_LoadPluginConfig.
    + by apply keeps_SavePluginConfig.
Qed.

(** C6. In a reachable registry, registering a plugin whose
    descriptor name is that of a registered plugin returns "plugin
    already exists" and changes nothing; and two entries whose
    plugins have the same descriptor name are one entry. *)
Theorem Register_names_unique sys m :
  reachable m ->
  (mu m = unlocked ->
   forall plugin info k inst info',
     Info plugin = Some info ->
     plugins m !! k = Some inst ->
     Info (Plugin_ inst) = Some info' ->
     Name info' = Name info ->
     Register sys plugin m = Bk.Done (Some ErrPluginAlreadyExists) m)
  /\ (forall k1 k2 inst1 inst2 info1 info2,
       plugins m !! k1 = Some inst1 ->
       plugins m !! k2 = Some inst2 ->
       Info (Plugin_ inst1) = Some info1 ->
       Info (Plugin_ inst2) = Some info2 ->
       Name info1 = Name info2 ->
       k1 = k2 /\ inst1 = inst2).
Proof.
  intros Hreach. pose proof (reachable_names_ok m Hreach) as Hok. split.
  - intros Hmu plugin info k inst info' Hinfo Hin Hinfo' Hname.
    destruct (Hok k inst Hin) as (i & Hi & Hk).
    assert (i = info') by congruence. subst i.
    assert (Hat : plugins m !! Name info = Some inst) by congruence.
    destruct m as [dir pl mx st cl]; cbn in *. subst mx.
    unfold Register. unfold_bk. cbn. rewrite Hinfo. cbn. rewrite Hat. reflexivity.
  - intros k1 k2 inst1 inst2 info1 info2 H1 H2 Hi1 Hi2 Hname.
    destruct (Hok k1 inst1 H1) as (i1 & Hi1' & Hk1).
    destruct (Hok k2 inst2 H2) as (i2 & Hi2' & Hk2).
    assert (k1 = k2) by congruence. subst k2. split; congruence.
Qed.
End Names.

Lemma testManager_reachable : reachable testManager.
Proof. unfold testManager. do 2 apply reachable_after. apply reachable_new. Qed.

Lemma Register_names_unique_witness :
  Register testSys (MockPlugin 8 (Some (testInfo "test-plugin")) 1%nat 0) testManager
  = Bk.Done (Some ErrPluginAlreadyExists) testManager.
Proof.
  destruct (Register_names_unique testSys testManager testManager_reachable) as [Hdup _].
  apply (Hdup eq_refl _ (testInfo "test-plugin") "test-plugin" testInstance
           (testInfo "test-plugin")); reflexivity.
Defined.

(** *** The mutex is given back *)

Section Mutex.
Context {P : Type}.
Implicit Types m : Manager P.

Lemma locks_ret {A} p (a : A) : locks p p (Bk.ret (S := Manager P) a).
Proof. intros m x m' Hm [= <- <-]. exact Hm. Qed.

Lemma locks_bind {A B} p q r (c : Bk.M (Manager P) A) (k : A -> Bk.M (Manager P) B) :
  locks p q c -> (forall a, locks q r (k a)) -> locks p r (Bk.bind c k).
Proof.
  intros Hc Hk m b m' Hm. unfold Bk.bind.
  destruct (c m) as [a m1|m1] eqn:Hcm; [|discriminate].
  intros Hkm. eapply Hk; [|exact Hkm]. eapply Hc; eassumption.
Qed.

Lemma locks_same {A} p (c : Bk.M (Manager P) A) :
  (forall m a m', c m = Bk.Done a m' -> mu m' = mu m) -> locks p p c.
Proof. intros Hsame m a m' Hm Hc. rewrite (Hsame _ _ _ Hc). exact Hm. Qed.

Lemma locks_get p : locks p p (@Bk.get (Manager P)).
Proof. apply locks_same. by intros m a m' [= <- <-]. Qed.

Lemma locks_setPlugins p f : locks p p (Bk.modify (@setPlugins P f)).
Proof. apply locks_same. by intros m a m' [= <- <-]. Qed.

Lemma locks_invoke {A} p c (f : Store P -> A * Store P) : locks p p (invoke c f).
Proof.
  apply locks_same. intros m a m'. unfold invoke.
  destruct (f (store m)). by intros [= <- <-].
Qed.

Lemma locks_newStatus p st : locks p p (@newStatus P st).
Proof. apply locks_same. by intros m a m' [= <- <-]. Qed.

Lemma locks_markStatus p l s e : locks p p (@markStatus P l s e).
Proof. apply locks_same. by intros m a m' [= <- <-]. Qed.

Lemma locks_markStartTime p l t : locks p p (@markStartTime P l t).
Proof. apply locks_same. by intros m a m' [= <- <-]. Qed.

Lemma locks_Lock : locks unlocked writeHeld (@Lock P).
Proof.
  intros m a m' Hm. unfold Lock. rewrite Hm. cbn. by intros [= <- <-].
Qed.

Lemma locks_Unlock : locks writeHeld unlocked (@Unlock P).
Proof. intros m a m' Hm [= <- <-]. cbn. by rewrite Hm. Qed.

Lemma locks_RLock : locks unlocked readHeld (@RLock P).
Proof.
  intros m a m' Hm. unfold RLock. rewrite Hm. cbn. by intros [= <- <-].
Qed.

Lemma locks_RUnlock : locks readHeld unlocked (@RUnlock P).
Proof. intros m a m' Hm [= <- <-]. cbn. by rewrite Hm. Qed.

(** A reader that arrives while the mutex is held for writing does
    not come back, so anything may be said of where it leaves it. *)
Lemma locks_RLock_parked q : locks writeHeld q (@RLock P).
Proof. intros m a m' Hm. unfold RLock. rewrite Hm. discriminate. Qed.

Ltac locks_step :=
  first
    [ eassumption
    | apply locks_ret | apply locks_get | apply locks_setPlugins | apply locks_invoke
    | apply locks_newStatus | apply locks_markStatus | apply locks_markStartTime
    | apply locks_Lock | apply locks_Unlock | apply locks_RLock | apply locks_RUnlock
    | apply locks_RLock_parked
    | eapply locks_bind; [|intros ?]
    | match goal with
      | |- locks _ _ (match ?x with _ => _ end) => destruct x eqn:?
      end ].

Ltac locks_all := repeat locks_step.

Lemma locks_Register sys (p : Plugin P) : locks unlocked unlocked (Register sys p).
Proof. unfold Register. locks_all. Qed.

Lemma locks_Unregister name : locks unlocked unlocked (@Unregister P name).
Proof. unfold Unregister. locks_all. Qed.

Lemma locks_GetPlugin name : locks unlocked unlocked (@GetPlugin P name).
Proof. unfold GetPlugin. locks_all. Qed.

Lemma locks_LoadPluginConfig sys name :
  locks unlocked unlocked (@LoadPluginConfig P sys name).
Proof. unfold LoadPluginConfig. locks_all. Qed.

Lemma locks_SavePluginConfig sys name :
  locks unlocked unlocked (@SavePluginConfig P sys name).
Proof. unfold SavePluginConfig. locks_all. Qed.

Lemma locks_LoadPluginConfig_parked sys name q :
  locks writeHeld q (@LoadPluginConfig P sys name).
Proof.
  intros m a m' Hm. unfold LoadPluginConfig, Bk.bind, RLock. rewrite Hm. discriminate.
Qed.

Lemma locks_SavePluginConfig_parked sys name q :
  locks writeHeld q (@SavePluginConfig P sys name).
Proof.
  intros m a m' Hm. unfold SavePluginConfig, Bk.bind, RLock. rewrite Hm. discriminate.
Qed.

Lemma locks_StartPlugin sys name : locks unlocked unlocked (@StartPlugin P sys name).
Proof.
  pose proof (locks_LoadPluginConfig_parked sys name writeHeld).
  unfold StartPlugin. locks_all.
Qed.

Lemma locks_StopPlugin sys name : locks unlocked unlocked (@StopPlugin P sys name).
Proof.
  pose proof (locks_SavePluginConfig_parked sys name writeHeld).
  unfold StopPlugin. locks_all.
Qed.

Lemma locks_forEach p op prefix names :
  (forall name, locks p p (op name)) -> locks p p (@forEach P op prefix names).
Proof.
  intros Hop. induction names as [|n names IH]; cbn [forEach]; locks_all.
  all: apply Hop.
Qed.

Lemma locks_StartAll sys names : locks unlocked unlocked (@StartAll P sys names).
Proof.
  pose proof (locks_forEach unlocked (StartPlugin sys) "failed to start plugin " names
                (locks_StartPlugin sys)).
  unfold StartAll. locks_all.
Qed.

Lemma locks_StopAll sys names : locks unlocked unlocked (@StopAll P sys names).
Proof.
  pose proof (locks_forEach unlocked (StopPlugin sys) "failed to stop plugin " names
                (locks_StopPlugin sys)).
  unfold StopAll. locks_all.
Qed.

Lemma locks_poll p name inst : locks p p (@poll P name inst).
Proof. unfold poll. locks_all. Qed.

Lemma locks_GetPluginStatus name : locks unlocked unlocked (@GetPluginStatus P name).
Proof.
  pose proof (fun inst => locks_poll readHeld name inst).
  unfold GetPluginStatus. locks_all. all: apply locks_poll.
Qed.

Lemma locks_pollAll p names : locks p p (@pollAll P names).
Proof.
  induction names as [|n names IH]; cbn [pollAll]; locks_all.
  all: apply locks_poll.
Qed.

Lemma locks_GetAllPluginStatus names :
  locks unlocked unlocked (@GetAllPluginStatus P names).
Proof.
  pose proof (locks_pollAll readHeld names).
  unfold GetAllPluginStatus. locks_all.
Qed.

Lemma locks_SendCommand name command args :
  locks unlocked unlocked (@SendCommand P name command args).
Proof. unfold SendCommand. locks_all. Qed.

Lemma locks_SendEvent name eventType data :
  locks unlocked unlocked (@SendEvent P name eventType data).
Proof. unfold SendEvent. locks_all. Qed.

Lemma came_back_final {A} (c : Bk.M (Manager P) A) m :
  locks unlocked unlocked c ->
  mu m = unlocked ->
  is_Some (Bk.returned (c m)) ->
  mu (Bk.final (c m)) = unlocked.
Proof.
  intros Hc Hm Hret. destruct (c m) as [a m'|m'] eqn:Hcm; cbn in *.
  - eapply Hc; eassumption.
  - by destruct Hret.
Qed.

(** X8. Every call on the registry that finds the mutex free and comes
    back leaves it free. *)
Theorem mutex_given_back sys (op : Op P) m :
  mu m = unlocked ->
  came_back sys op m ->
  mu (after sys op m) = unlocked.
Proof.
  intros Hm. destruct op; cbn [came_back after]; apply came_back_final; try assumption.
  - apply locks_Register.
  - apply locks_Unregister.
  - apply locks_GetPlugin.
  - apply locks_StartPlugin.
  - apply locks_StopPlugin.
  - apply locks_StartAll.
  - apply locks_StopAll.
  - apply locks_GetPluginStatus.
  - apply locks_GetAllPluginStatus.
  - apply locks_SendCommand.
  - apply locks_SendEvent.
  - apply locks_LoadPluginConfig.
  - apply locks_SavePluginConfig.
Qed.
End Mutex.

Lemma mutex_given_back_witness :
  mu (after testSys (OpSendCommand "test-plugin" "test-command" ∅) testManager) = unlocked.
Proof.
  apply (mutex_given_back testSys (OpSendCommand "test-plugin" "test-command" ∅) testManager).
  - reflexivity.
  - vm_compute. eauto.
Defined.

(** *** Registering, unregistering, stopping *)

Section Lifecycle.
Context {P : Type}.
Implicit Types m : Manager P.

(** X9. [Unregister] while the mutex is free. An unknown name gives
    "plugin not found" and changes nothing. A registered name is always
    removed, with a nil error: the plugin's [Stop] is invoked first
    exactly when the instance is ["running"], and its error, if any,
    is only logged. *)
Theorem Unregister_spec m (name : string) :
  mu m = unlocked ->
  (plugins m !! name = None ->
     Unregister name m = Bk.Done (Some ErrPluginNotFound) m)
  /\ (forall inst, plugins m !! name = Some inst ->
       exists m', Unregister name m = Bk.Done None m'
         /\ plugins m' = delete name (plugins m)
         /\ mu m' = unlocked
         /\ calls m' = calls m ++
              (if decide (instanceStatus m inst = "running")
               then [CallStop (ptr (Plugin_ inst))] else [])).
Proof.
  destruct m as [dir pl mx st cl]; cbn. intros ->. split.
  - intros Hnone. unfold Unregister. unfold_bk. cbn. by rewrite Hnone.
  - intros inst Hin. unfold Unregister, instanceStatus, statusAt. unfold_bk. cbn.
    rewrite Hin. case_decide; cbn.
    + destruct (Stop (Plugin_ inst) st) as [e s']. eexists. repeat split.
    + eexists. repeat split. cbn. by rewrite app_nil_r.
Qed.

(** X10. [Register] of a plugin whose descriptor name is free: the plugin
    is stored under that name with status ["stopped"], no method of the
    plugin is invoked, the other entries stay, and [GetPlugin] then
    finds the plugin under its name. *)
Theorem Register_then_GetPlugin sys m (plugin : Plugin P) (info : PluginInfo) :
  mu m = unlocked ->
  Info plugin = Some info ->
  plugins m !! Name info = None ->
  exists m' inst,
    Register sys plugin m = Bk.Done None m'
    /\ plugins m' = <[Name info := inst]> (plugins m)
    /\ Plugin_ inst = plugin
    /\ instanceStatus m' inst = "stopped"
    /\ calls m' = calls m
    /\ GetPlugin (Name info) m' = Bk.Done (Some plugin) m'.
Proof.
  destruct m as [dir pl mx st cl]; cbn. intros -> Hinfo Hfree.
  unfold Register, GetPlugin, instanceStatus, statusAt. unfold_bk. cbn.
  rewrite Hinfo. cbn. rewrite Hfree. cbn.
  eexists. eexists. split; [reflexivity|]. cbn. repeat split.
  - by rewrite lookup_insert_eq.
  - by rewrite lookup_insert_eq.
Qed.

(** X11. [Register] followed by [Unregister] of the same name gives back
    the table of plugins there was, with the mutex free and without
    having invoked the plugin. *)
Theorem Register_Unregister sys m (plugin : Plugin P) (info : PluginInfo) :
  mu m = unlocked ->
  Info plugin = Some info ->
  plugins m !! Name info = None ->
  exists m1 m2,
    Register sys plugin m = Bk.Done None m1
    /\ Unregister (Name info) m1 = Bk.Done None m2
    /\ plugins m2 = plugins m
    /\ mu m2 = unlocked
    /\ calls m2 = calls m.
Proof.
  destruct m as [dir pl mx st cl]; cbn. intros -> Hinfo Hfree.
  unfold Register, Unregister, instanceStatus, statusAt. unfold_bk. cbn.
  rewrite Hinfo. cbn. rewrite Hfree. cbn.
  eexists. eexists. split; [reflexivity|]. cbn.
  rewrite !lookup_insert_eq. cbn.
  split; [reflexivity|]. cbn. repeat split.
  by apply delete_insert_id.
Qed.

(** X13. [StopPlugin] while the mutex is free, on the paths that come back:
    an unknown name gives "plugin not found"; an instance that is not
    ["running"] gives "plugin not started"; in both cases nothing
    changes. When the plugin's [Stop] fails, its error is returned
    wrapped, the instance's status becomes ["error"] with the error's
    text, and the mutex is free again. *)
Theorem StopPlugin_refusals sys m (name : string) :
  mu m = unlocked ->
  (plugins m !! name = None ->
     StopPlugin sys name m = Bk.Done (Some ErrPluginNotFound) m)
  /\ (forall inst, plugins m !! name = Some inst -> instanceStatus m inst <> "running" ->
       StopPlugin sys name m = Bk.Done (Some ErrPluginNotStarted) m)
  /\ (forall inst e s', plugins m !! name = Some inst -> instanceStatus m inst = "running" ->
       Stop (Plugin_ inst) (store m) = (Some e, s') ->
       is_Some (objs s' !! InstStatus inst) ->
       exists m', StopPlugin sys name m
                  = Bk.Done (Some (wrapf ("failed to stop plugin " +:+ name +:+ ": ") e)) m'
         /\ plugins m' = plugins m
         /\ mu m' = unlocked
         /\ calls m' = calls m ++ [CallStop (ptr (Plugin_ inst))]
         /\ instanceStatus m' inst = "error"
         /\ LastError (statusAt m' (InstStatus inst)) = errorText e).
Proof.
  destruct m as [dir pl mx st cl]; cbn. intros ->. repeat split.
  - intros Hnone. unfold StopPlugin. unfold_bk. cbn. by rewrite Hnone.
  - intros inst Hin Hrun. unfold StopPlugin, instanceStatus, statusAt in *. unfold_bk.
    cbn in *. rewrite Hin. case_decide; [contradiction | reflexivity].
  - intros inst e s' Hin Hrun Hstop [old Hold].
    unfold StopPlugin, instanceStatus, statusAt in *. unfold_bk. cbn in *.
    rewrite Hin. case_decide; [|contradiction]. cbn. rewrite Hstop.
    eexists. split; [reflexivity|]. cbn.
    rewrite lookup_alter, decide_True by reflexivity. rewrite Hold. cbn.
    repeat split.
Qed.

(** X14. Past these paths [StopPlugin] does not come back. When the plugin's
    [Stop] succeeds, [StopPlugin] still holds the mutex for writing as
    [SavePluginConfig] asks for it for reading: the plugin has been
    stopped, the registry's status object has not been updated, and the
    mutex stays held. *)
Theorem StopPlugin_parks sys m (name : string) (inst : PluginInstance P) (s' : Store P) :
  mu m = unlocked ->
  plugins m !! name = Some inst ->
  instanceStatus m inst = "running" ->
  Stop (Plugin_ inst) (store m) = (None, s') ->
  StopPlugin sys name m
  = Bk.Blocked {| dataDir := dataDir m; plugins := plugins m; mu := writeHeld;
                  store := s'; calls := calls m ++ [CallStop (ptr (Plugin_ inst))] |}.
Proof.
  destruct m as [dir pl mx st cl]; cbn. intros -> Hin Hrun Hstop.
  unfold StopPlugin, SavePluginConfig, instanceStatus, statusAt in *. unfold_bk.
  cbn in *. rewrite Hin. case_decide; [|contradiction]. cbn. by rewrite Hstop.
Qed.

(** X15. [GetPluginStatus] makes the registry look at the plugin's own
    status object, and from then on dispatch goes by that object: a
    command is forwarded exactly when it says ["running"], whatever the
    status the registry recorded before. *)
Theorem poll_then_dispatch m (name : string) (inst : PluginInstance P) (l : loc)
    (s1 : Store P) :
  writer (mu m) = false ->
  plugins m !! name = Some inst ->
  PStatus (Plugin_ inst) (store m) = (Some l, s1) ->
  exists m1,
    GetPluginStatus name m = Bk.Done (Some l, None) m1
    /\ store m1 = s1
    /\ plugins m1 = <[name := withStatus l inst]> (plugins m)
    /\ mu m1 = mu m
    /\ (forall command args,
          Status (default emptyStatus (objs s1 !! l)) = "running" ->
          Bk.returned (SendCommand name command args m1)
          = Some (HandleCommand (Plugin_ inst) command args s1).1)
    /\ (forall command args,
          Status (default emptyStatus (objs s1 !! l)) <> "running" ->
          SendCommand name command args m1 = Bk.Done (VNil, Some ErrPluginNotStarted) m1).
Proof.
  destruct m as [dir pl [wr rd] st cl]; cbn. intros -> Hin Hpoll.
  unfold GetPluginStatus, poll, SendCommand, instanceStatus, statusAt. unfold_bk. cbn.
  rewrite Hin. cbn. rewrite Hpoll. cbn.
  eexists. split; [reflexivity|]. cbn.
  assert (Halter : alter (withStatus l) name pl = <[name := withStatus l inst]> pl).
  { apply map_eq. intros k. rewrite lookup_alter, lookup_insert.
    case_decide; [subst; by rewrite Hin | reflexivity]. }
  rewrite Halter, lookup_insert_eq. cbn.
  repeat split.
  - intros command args Hrun. rewrite decide_True by assumption. cbn.
    destruct (HandleCommand (Plugin_ inst) command args s1); reflexivity.
  - intros command args Hrun. by rewrite decide_False by assumption.
Qed.

(** X16. [LoadPluginConfig] for a registered instance, while no writer holds
    the mutex and the configuration directory can be made: a missing
    file is not an error and changes nothing; a file that cannot be read
    or parsed gives that error and changes nothing; a parsed file
    replaces the instance's configuration and nothing else. *)
Theorem LoadPluginConfig_spec sys m (name : string) (inst : PluginInstance P) :
  writer (mu m) = false ->
  plugins m !! name = Some inst ->
  mkdirAll sys (filepathDir sys (ConfigFile inst)) = None ->
  match readFile sys (ConfigFile inst) with
  | ReadNotExist _ => LoadPluginConfig sys name m = Bk.Done None m
  | ReadFailed e => LoadPluginConfig sys name m = Bk.Done (Some e) m
  | ReadOk data =>
      match jsonUnmarshal sys data with
      | inl e => LoadPluginConfig sys name m = Bk.Done (Some e) m
      | inr config =>
          LoadPluginConfig sys name m
          = Bk.Done None
              {| dataDir := dataDir m;
                 plugins := <[name := withConfig config inst]> (plugins m);
                 mu := mu m; store := store m; calls := calls m |}
      end
  end.
Proof.
  destruct m as [dir pl [wr rd] st cl]; cbn. intros -> Hin Hdir.
  unfold LoadPluginConfig. unfold_bk. cbn. rewrite Hin, Hdir.
  destruct (readFile sys (ConfigFile inst)) as [data|e|e]; try reflexivity.
  destruct (jsonUnmarshal sys data) as [e|config]; [reflexivity|].
  cbn. do 2 f_equal. apply map_eq. intros k. rewrite lookup_alter, lookup_insert.
  case_decide; [subst; by rewrite Hin | reflexivity].
Qed.
End Lifecycle.

Lemma Unregister_spec_witness :
  exists m', Unregister "test-plugin" testManager = Bk.Done None m'
    /\ plugins m' = delete "test-plugin" (plugins testManager)
    /\ mu m' = unlocked
    /\ calls m' = calls testManager ++
         (if decide (instanceStatus testManager testInstance = "running")
          then [CallStop (ptr (Plugin_ testInstance))] else []).
Proof.
  apply (Unregister_spec testManager "test-plugin"); reflexivity.
Defined.

Lemma emptyManager_free :
  plugins (NewManager "/var/agent"
             {| objs := ∅; next := 0%nat; priv := (∅ : gmap nat (gmap string Value)) |})
    !! "test-plugin" = None.
Proof. reflexivity. Qed.

Lemma Register_then_GetPlugin_witness :
  exists m' inst,
    Register testSys (MockPlugin 7 (Some (testInfo "test-plugin")) 0%nat 0)
      (NewManager "/var/agent" {| objs := ∅; next := 0%nat; priv := ∅ |})
    = Bk.Done None m'
    /\ plugins m' = <[ "test-plugin" := inst ]> ∅
    /\ Plugin_ inst = MockPlugin 7 (Some (testInfo "test-plugin")) 0%nat 0
    /\ instanceStatus m' inst = "stopped"
    /\ calls m' = []
    /\ GetPlugin "test-plugin" m'
       = Bk.Done (Some (MockPlugin 7 (Some (testInfo "test-plugin")) 0%nat 0)) m'.
Proof.
  apply (Register_then_GetPlugin testSys
           (NewManager "/var/agent" {| objs := ∅; next := 0%nat; priv := ∅ |})
           (MockPlugin 7 (Some (testInfo "test-plugin")) 0%nat 0)
           (testInfo "test-plugin")); reflexivity.
Defined.

Lemma Register_Unregister_witness :
  exists m1 m2,
    Register testSys (MockPlugin 7 (Some (testInfo "test-plugin")) 0%nat 0)
      (NewManager "/var/agent" {| objs := ∅; next := 0%nat; priv := ∅ |})
    = Bk.Done None m1
    /\ Unregister "test-plugin" m1 = Bk.Done None m2
    /\ plugins m2 = ∅
    /\ mu m2 = unlocked
    /\ calls m2 = [].
Proof.
  apply (Register_Unregister testSys
           (NewManager "/var/agent" {| objs := ∅; next := 0%nat; priv := ∅ |})
           (MockPlugin 7 (Some (testInfo "test-plugin")) 0%nat 0)
           (testInfo "test-plugin")); reflexivity.
Defined.

Lemma StartPlugin_parks_witness :
  StartPlugin testSys "test-plugin" registeredManager
  = Bk.Blocked (setMu {| writer := true; readers := 0 |} registeredManager).
Proof.
  apply (StartPlugin_parks testSys registeredManager "test-plugin" registeredInstance);
    [reflexivity | reflexivity | vm_compute; discriminate].
Defined.

Lemma StopPlugin_refusals_witness :
  exists m', StopPlugin testSys "stubborn" stubbornManager
             = Bk.Done (Some (wrapf ("failed to stop plugin " +:+ "stubborn" +:+ ": ")
                                (ErrNew "still busy"))) m'
    /\ plugins m' = plugins stubbornManager
    /\ mu m' = unlocked
    /\ calls m' = calls stubbornManager ++ [CallStop (ptr (Plugin_ stubbornInstance))]
    /\ instanceStatus m' stubbornInstance = "error"
    /\ LastError (statusAt m' (InstStatus stubbornInstance)) = errorText (ErrNew "still busy").
Proof.
  destruct (StopPlugin_refusals testSys stubbornManager "stubborn") as (_ & _ & Hfail);
    [reflexivity|].
  apply (Hfail stubbornInstance (ErrNew "still busy") (store stubbornManager));
    [reflexivity | reflexivity | reflexivity | vm_compute; eauto].
Defined.

Lemma StopPlugin_parks_witness :
  exists s',
    StopPlugin testSys "test-plugin" testManager
    = Bk.Blocked {| dataDir := dataDir testManager; plugins := plugins testManager;
                    mu := writeHeld; store := s';
                    calls := calls testManager ++ [CallStop 7%nat] |}.
Proof.
  eexists.
  apply (StopPlugin_parks testSys testManager "test-plugin" testInstance);
    reflexivity.
Defined.

Lemma poll_then_dispatch_witness :
  exists m1,
    GetPluginStatus "test-plugin" registeredManager = Bk.Done (Some 0%nat, None) m1
    /\ Bk.returned (SendCommand "test-plugin" "test-command" ∅ m1)
       = Some (VMap [("command", VString "test-command"); ("args", VMap [])], None).
Proof.
  destruct (poll_then_dispatch registeredManager "test-plugin" registeredInstance 0%nat
              (store registeredManager))
    as (m1 & Hpoll & Hstore & _ & _ & Hrun & _); [reflexivity | reflexivity | reflexivity |].
  exists m1. split; [exact Hpoll|].
  rewrite (Hrun "test-command" ∅); reflexivity.
Defined.

Lemma LoadPluginConfig_spec_witness :
  LoadPluginConfig testSys "test-plugin" testManager = Bk.Done None testManager.
Proof.
  apply (LoadPluginConfig_spec testSys testManager "test-plugin" testInstance);
    reflexivity.
Defined.
End PluginManagerProps.

Module StateStoreProps.
Import StateStore.

(** Saturation does not move a difference across the five-minute
    mark. *)
Lemma Since_stale (now t : Z) :
  5 * Minute < Since now t <-> 5 * Minute < now - t.
Proof.
  unfold Since, Sub, maxInt64, minInt64, Minute, Second.
  change (2 ^ 63) with 9223372036854775808. lia.
Qed.

(** C7. [IsHealthy] answers false exactly when the stored status is
    not ["running"] or the last heartbeat lies more than five minutes
    before the current time; the record in memory and the files on
    disk are what they were. *)
Theorem IsHealthy_spec (now : Z) (s : Store) :
  ((IsHealthy now s).1 = false <->
     Status_ (status (manager s)) <> "running"
     \/ 5 * Minute < now - LastHeartbeat (status (manager s)))
  /\ (IsHealthy now s).2 = s.
Proof.
  unfold IsHealthy, St.bind, St.get, St.ret. cbn.
  pose proof (Since_stale now (LastHeartbeat (status (manager s)))) as Hstale.
  destruct (Z.ltb_spec (5 * Minute) (Since now (LastHeartbeat (status (manager s)))))
    as [Hlt|Hge]; cbn.
  - split; [|reflexivity]. split; [intros _; right; by apply Hstale | reflexivity].
  - case_decide as Hrun; cbn; (split; [|reflexivity]); split.
    + discriminate.
    + intros [Hne|Hlt]; [contradiction | apply Hstale in Hlt; lia].
    + intros _. by left.
    + reflexivity.
Qed.


(** *** Memory first, disk second *)

Lemma saveStatus_memory (sys : Sys) (s : Store) :
  manager (saveStatus sys s).2 = manager s.
Proof.
  unfold saveStatus. destruct (jsonMarshalIndent sys _); [reflexivity|].
  destruct (writeError sys _); reflexivity.
Qed.

Lemma mutate_memory (sys : Sys) (c : Mutation) (s : Store) :
  manager (mutate sys c s)
  = {| dataDir := dataDir (manager s); status := edit c (status (manager s));
       startTime := startTime (manager s) |}.
Proof.
  destruct c; cbn; unfold Start, Stop, UpdateSystemInfo, UpdateTaskCount,
    UpdateHeartbeat, SetAgentID, SetVersion, St.bind, St.modify, St.ret; cbn.
  all: match goal with
       | |- context [saveStatus ?y ?x] =>
           pose proof (saveStatus_memory y x) as Hmem;
           destruct (saveStatus y x) as [r s']; cbn in *; rewrite Hmem; reflexivity
       end.
Qed.

(** X17. Read after write: after any mutator returns, [GetStatus] shows the
    record with that mutator's change applied (and the uptime just
    computed), whether or not the write to disk went through. *)
Theorem read_after_write (sys : Sys) (c : Mutation) (s : Store) (now : Z) :
  (GetStatus now (mutate sys c s)).1
  = withUptime (Since now (startTime (manager s))) (edit c (status (manager s))).
Proof.
  unfold GetStatus, St.bind, St.get, St.modify, St.ret. cbn.
  rewrite mutate_memory. reflexivity.
Qed.

Lemma mutate_saved (sys : Sys) (c : Mutation) (s : Store) (data : string) :
  jsonMarshalIndent sys (edit c (status (manager s))) = inr data ->
  writeError sys (statusFile sys s) = None ->
  disk (mutate sys c s) !! statusFile sys s = Some data.
Proof.
  unfold statusFile. intros Henc Hwrite.
  destruct c; cbn in *; unfold Start, Stop, UpdateSystemInfo, UpdateTaskCount,
    UpdateHeartbeat, SetAgentID, SetVersion, saveStatus, St.bind, St.modify, St.ret; cbn.
  all: rewrite Henc; cbn; rewrite Hwrite; cbn; by rewrite lookup_insert_eq.
Qed.


(** X19. Restart: when the record was written and the decoder gives back
    what the encoder was given, a new manager over the same directory
    and disk starts from the record the old one had. *)
Theorem restart_restores (sys : Sys) (c : Mutation) (s : Store) (t1 t2 : Z) (data : string) :
  jsonMarshalIndent sys (edit c (status (manager s))) = inr data ->
  jsonUnmarshal sys data = inr (edit c (status (manager s))) ->
  writeError sys (statusFile sys s) = None ->
  readError sys (statusFile sys s) = None ->
  mkdirAll sys (dataDir (manager s)) = None ->
  exists s', NewManager sys (dataDir (manager s)) t1 t2 (disk (mutate sys c s)) = inr s'
    /\ status (manager s') = status (manager (mutate sys c s))
    /\ disk s' = disk (mutate sys c s).
Proof.
  intros Henc Hdec Hwrite Hread Hdir.
  pose proof (mutate_saved sys c s data Henc Hwrite) as Hfile.
  unfold NewManager. rewrite Hdir. eexists. split; [reflexivity|].
  unfold loadStatus. cbn. fold (statusFile sys s). rewrite Hfile, Hread, Hdec. cbn.
  rewrite mutate_memory. by split.
Qed.

(** X20. Construction does not fail on a bad status file. Once the data
    directory exists, [NewManager] returns a manager; when the file is
    missing, unreadable or unparsable, its record is the default one,
    ["stopped"], and the disk is left as found. *)
Theorem NewManager_falls_back (sys : Sys) (dir : string) (t1 t2 : Z)
    (files : gmap string string) :
  mkdirAll sys dir = None ->
  exists s, NewManager sys dir t1 t2 files = inr s
    /\ disk s = files
    /\ dataDir (manager s) = dir
    /\ startTime (manager s) = t1
    /\ ((files !! filepathJoin sys [dir; "status.json"] = None
         \/ is_Some (readError sys (filepathJoin sys [dir; "status.json"]))
         \/ (exists data e, files !! filepathJoin sys [dir; "status.json"] = Some data
                            /\ jsonUnmarshal sys data = inl e)) ->
        status (manager s) = withStartTime t2 (withState "stopped" zeroStatus)).
Proof.
  intros Hdir. unfold NewManager. rewrite Hdir. eexists. split; [reflexivity|].
  unfold loadStatus. cbn.
  destruct (files !! filepathJoin sys [dir; "status.json"]) as [data|] eqn:Hfile; cbn.
  - destruct (readError sys _) as [e|] eqn:Hread; cbn; [by repeat split|].
    destruct (jsonUnmarshal sys data) as [e|st] eqn:Hdec; cbn; [by repeat split|].
    repeat split. intros [Hnone | [[e He] | (data' & e & [= <-] & Hbad)]];
      [discriminate | discriminate | congruence].
  - by repeat split.
Qed.

(** X21. [Start], then [IsHealthy]: the store is healthy as long as the
    clock has not moved more than five minutes past the heartbeat that
    [Start] recorded, saved or not. After [Stop] it is not healthy,
    whatever the clock says. *)
Theorem Start_Stop_health (sys : Sys) (s : Store) (t1 t2 now : Z) :
  ((IsHealthy now (Start sys t1 t2 s).2).1 = true <-> now - t2 <= 5 * Minute)
  /\ (IsHealthy now (Stop sys s).2).1 = false.
Proof.
  pose proof (mutate_memory sys (MStart t1 t2) s) as Hstart.
  pose proof (mutate_memory sys MStop s) as Hstop. cbn in Hstart, Hstop.
  unfold IsHealthy, St.bind, St.get, St.ret. cbn. rewrite Hstart, Hstop. cbn.
  pose proof (Since_stale now t2) as Hstale.
  pose proof (Since_stale now (LastHeartbeat (status (manager s)))) as Hstale'.
  split.
  - destruct (Z.ltb_spec (5 * Minute) (Since now t2)); cbn.
    + split; [discriminate | intros; lia].
    + split; [intros _; lia | reflexivity].
  - destruct (Z.ltb_spec (5 * Minute) (Since now (LastHeartbeat (status (manager s)))));
      reflexivity.
Qed.
Lemma restart_restores_witness :
  exists s', NewManager plainSys "/var/agent" 5 6
               (disk (mutate plainSys (MSetAgentID "agent-1") freshStore)) = inr s'
    /\ status (manager s') = status (manager (mutate plainSys (MSetAgentID "agent-1") freshStore))
    /\ disk s' = disk (mutate plainSys (MSetAgentID "agent-1") freshStore).
Proof.
  apply (restart_restores plainSys (MSetAgentID "agent-1") freshStore 5 6 "agent-1");
    reflexivity.
Defined.

Lemma NewManager_falls_back_witness :
  exists s, NewManager plainSys "/var/agent" 5 6 ∅ = inr s
    /\ status (manager s) = withStartTime 6 (withState "stopped" zeroStatus).
Proof.
  destruct (NewManager_falls_back plainSys "/var/agent" 5 6 ∅)
    as (s & Hnew & _ & _ & _ & Hdefault); [reflexivity|].
  exists s. split; [exact Hnew|]. apply Hdefault. left. reflexivity.
Defined.

End StateStoreProps.

Module UpdaterProps.
Import Updater.

Lemma nat_of_ascii_inj (x y : ascii) : nat_of_ascii x = nat_of_ascii y -> x = y.
Proof.
  intros Heq. rewrite <- (ascii_nat_embedding x), <- (ascii_nat_embedding y).
  by rewrite Heq.
Qed.

(** Go's [<] on strings is the lexicographic order. *)
Lemma stringLess_lexLess (a b : string) : stringLess a b = true <-> lexLess a b.
Proof.
  revert b. induction a as [|x a IH]; intros [|y b]; cbn [stringLess].
  - split; [discriminate | inversion 1].
  - split; [intros _; apply lexLess_empty | reflexivity].
  - split; [discriminate | inversion 1].
  - destruct (Nat.ltb_spec (nat_of_ascii x) (nat_of_ascii y)) as [Hxy|Hxy].
    + split; [intros _; by apply lexLess_head | reflexivity].
    + destruct (Nat.ltb_spec (nat_of_ascii y) (nat_of_ascii x)) as [Hyx|Hyx].
      * split; [discriminate|]. inversion 1; subst; lia.
      * assert (x = y) by (apply nat_of_ascii_inj; lia). subst y.
        rewrite IH. split; [by apply lexLess_tail|].
        inversion 1; subst; [lia | assumption].
Qed.

Lemma lexLess_irrefl (s : string) : ~ lexLess s s.
Proof.
  induction s as [|x s IH]; inversion 1; subst; [lia | by apply IH].
Qed.

(** C8. [compareVersions] is the lexical comparison of the two
    strings: 0 on equal strings, 1 when the first is lexicographically
    above the second, -1 otherwise. So "10.0.0" is below "2.0.0", and
    an offered update counts as available exactly when its version
    string is lexicographically above the current one. *)
Theorem compareVersions_lexical (p : UpdaterPlugin) (v1 v2 : string) :
  (v1 = v2 -> compareVersions p v1 v2 = 0)
  /\ (lexLess v2 v1 -> compareVersions p v1 v2 = 1)
  /\ (v1 <> v2 -> ~ lexLess v2 v1 -> compareVersions p v1 v2 = -1)
  /\ compareVersions p "10.0.0" "2.0.0" = -1
  /\ (forall update,
        (decideUpdate p (Some update, None)).1.1 = true
        <-> lexLess (currentVersion p) (Version update)).
Proof.
  unfold compareVersions, stringGreater. repeat split.
  - intros ->. by case_decide.
  - intros Hlt. case_decide as Heq.
    + subst. by apply lexLess_irrefl in Hlt.
    + apply stringLess_lexLess in Hlt. by rewrite Hlt.
  - intros Hne Hnlt. case_decide; [done|].
    destruct (stringLess v2 v1) eqn:Hless; [|reflexivity].
    apply stringLess_lexLess in Hless. contradiction.
  - cbn. unfold compareVersions, stringGreater. case_decide as Heq.
    + intros Hpos. discriminate Hpos.
    + destruct (stringLess (currentVersion p) (Version update)) eqn:Hless.
      * intros _. by apply stringLess_lexLess.
      * intros Hpos. discriminate Hpos.
  - cbn. unfold compareVersions, stringGreater. intros Hlt. case_decide as Heq.
    + rewrite Heq in Hlt. by apply lexLess_irrefl in Hlt.
    + apply stringLess_lexLess in Hlt. by rewrite Hlt.
Qed.

Lemma compareVersions_lexical_witness :
  compareVersions {| currentVersion := "2.0.0"; updateURL := ""; downloadDir := "" |}
    "9.0.0" "10.0.0" = 1.
Proof.
  apply (compareVersions_lexical
           {| currentVersion := "2.0.0"; updateURL := ""; downloadDir := "" |}
           "9.0.0" "10.0.0").
  apply lexLess_head. vm_compute. lia.
Defined.

(** As it stands [checkUpdate] offers nothing, so [isUpdateAvailable]
    answers no on every plugin state. *)
Lemma isUpdateAvailable_never (p : UpdaterPlugin) :
  isUpdateAvailable p = (false, None, None).
Proof. reflexivity. Qed.


(** *** The comparison is an order *)

Lemma stringLess_irrefl (a : string) : stringLess a a = false.
Proof.
  destruct (stringLess a a) eqn:Hless; [|reflexivity].
  apply stringLess_lexLess in Hless. by apply lexLess_irrefl in Hless.
Qed.

Lemma stringLess_asym (a b : string) : stringLess a b = true -> stringLess b a = false.
Proof.
  revert b. induction a as [|x a IH]; intros [|y b]; cbn [stringLess]; try done.
  destruct (Nat.ltb_spec (nat_of_ascii x) (nat_of_ascii y)) as [Hxy|Hxy].
  - intros _. destruct (Nat.ltb_spec (nat_of_ascii y) (nat_of_ascii x)); [lia|].
    destruct (Nat.ltb_spec (nat_of_ascii x) (nat_of_ascii y)); [reflexivity | lia].
  - destruct (Nat.ltb_spec (nat_of_ascii y) (nat_of_ascii x)) as [Hyx|Hyx]; [done|].
    apply IH.
Qed.

Lemma stringLess_total (a b : string) :
  stringLess a b = false -> stringLess b a = false -> a = b.
Proof.
  revert b. induction a as [|x a IH]; intros [|y b]; cbn [stringLess]; try done.
  destruct (Nat.ltb_spec (nat_of_ascii x) (nat_of_ascii y)) as [Hxy|Hxy]; [done|].
  destruct (Nat.ltb_spec (nat_of_ascii y) (nat_of_ascii x)) as [Hyx|Hyx]; [done|].
  intros Hab Hba. assert (x = y) by (apply nat_of_ascii_inj; lia). subst y.
  f_equal. by apply IH.
Qed.

Lemma stringLess_trans (a b c : string) :
  stringLess a b = true -> stringLess b c = true -> stringLess a c = true.
Proof.
  revert b c. induction a as [|x a IH]; intros [|y b] [|z c]; cbn [stringLess]; try done.
  destruct (Nat.ltb_spec (nat_of_ascii x) (nat_of_ascii y)) as [Hxy|Hxy].
  - intros _.
    destruct (Nat.ltb_spec (nat_of_ascii y) (nat_of_ascii z)) as [Hyz|Hyz].
    + intros _. destruct (Nat.ltb_spec (nat_of_ascii x) (nat_of_ascii z)); [reflexivity | lia].
    + destruct (Nat.ltb_spec (nat_of_ascii z) (nat_of_ascii y)) as [Hzy|Hzy]; [done|].
      intros _. destruct (Nat.ltb_spec (nat_of_ascii x) (nat_of_ascii z)); [reflexivity | lia].
  - destruct (Nat.ltb_spec (nat_of_ascii y) (nat_of_ascii x)) as [Hyx|Hyx]; [done|].
    intros Hab.
    destruct (Nat.ltb_spec (nat_of_ascii y) (nat_of_ascii z)) as [Hyz|Hyz].
    + intros _. destruct (Nat.ltb_spec (nat_of_ascii x) (nat_of_ascii z)); [reflexivity | lia].
    + destruct (Nat.ltb_spec (nat_of_ascii z) (nat_of_ascii y)) as [Hzy|Hzy]; [done|].
      intros Hbc.
      destruct (Nat.ltb_spec (nat_of_ascii x) (nat_of_ascii z)); [reflexivity|].
      destruct (Nat.ltb_spec (nat_of_ascii z) (nat_of_ascii x)); [lia|].
      by apply (IH b c).
Qed.

(** X22. [compareVersions] behaves as a comparison should: it answers 0
    only on equal strings, swapping the arguments negates the answer,
    and "above" is transitive. *)
Theorem compareVersions_order (p : UpdaterPlugin) (a b c : string) :
  (compareVersions p a b = 0 <-> a = b)
  /\ compareVersions p b a = - compareVersions p a b
  /\ (compareVersions p a b = 1 -> compareVersions p b c = 1 ->
      compareVersions p a c = 1).
Proof.
  unfold compareVersions, stringGreater. repeat split.
  - case_decide; [done|]. destruct (stringLess b a); discriminate.
  - intros ->. by case_decide.
  - destruct (decide (a = b)) as [->|Hne].
    + by rewrite decide_True.
    + rewrite (decide_False (P := b = a)) by congruence.
      destruct (stringLess b a) eqn:Hba.
      * by rewrite (stringLess_asym b a Hba).
      * destruct (stringLess a b) eqn:Hab; [reflexivity|].
        exfalso. apply Hne. by apply stringLess_total.
  - destruct (decide (a = b)) as [->|Hab]; [discriminate|].
    destruct (decide (b = c)) as [->|Hbc]; [discriminate|].
    destruct (stringLess b a) eqn:Hba; [|discriminate].
    destruct (stringLess c b) eqn:Hcb; [|discriminate].
    intros _ _. pose proof (stringLess_trans c b a Hcb Hba) as Hca.
    case_decide as Hac.
    + subst c. by rewrite stringLess_irrefl in Hca.
    + by rewrite Hca.
Qed.

Lemma compareVersions_order_witness :
  compareVersions {| currentVersion := "1.0.0"; updateURL := ""; downloadDir := "" |}
    "1.2.0" "1.0.9" = 1.
Proof.
  apply (compareVersions_order
           {| currentVersion := "1.0.0"; updateURL := ""; downloadDir := "" |}
           "1.2.0" "1.1.0" "1.0.9"); reflexivity.
Defined.
End UpdaterProps.

Module SchedulerProps.
Import Scheduler.

Section WithCron.
Context {C : Type}.
Variable cron : CronLib C.

(** C2 fails on the code: an [update_task] request that renames the
    task and carries an expression [ParseStandard] rejects is
    refused, but the task keeps the new name. *)
Theorem handleUpdateTask_bad_cron_keeps_rename
    (p : SchedulerPlugin C) (id name' expr : string) (task : TaskInfo) (e : error) :
  tasks p !! id = Some task ->
  ParseStandard cron expr = Some e ->
  handleUpdateTask cron
    {[ "id" := VString id; "name" := VString name'; "cron_expr" := VString expr ]} p
  = ((VNil, Some (ErrNew ("invalid cron expression: " +:+ errorText e))),
     {| scheduler := scheduler p; tasks := <[id := setName name' task]> (tasks p) |}).
Proof.
  intros Hin Hbad.
  set (args := ({[ "id" := VString id; "name" := VString name';
                   "cron_expr" := VString expr ]} : gmap string Value)).
  assert (Hid : stringArg args "id" = Some id) by (vm_compute; reflexivity).
  assert (Hname : stringArg args "name" = Some name') by (vm_compute; reflexivity).
  assert (Hdesc : stringArg args "description" = None) by (vm_compute; reflexivity).
  assert (Hexpr : stringArg args "cron_expr" = Some expr) by (vm_compute; reflexivity).
  unfold handleUpdateTask, assignIfString, updateTask, St.bind, St.get, St.ret, St.modify.
  rewrite Hid, Hin, Hname, Hdesc, Hexpr, Hbad. cbn.
  do 2 f_equal. apply map_eq. intros k.
  rewrite !lookup_alter, lookup_insert.
  case_decide; [subst k; rewrite Hin; cbn; by rewrite decide_True | reflexivity].
Qed.
End WithCron.

Lemma handleUpdateTask_bad_cron_keeps_rename_witness :
  handleUpdateTask fiveFields renameWithBadCron onlyBackup
  = ((VNil, Some (ErrNew "invalid cron expression: expected exactly 5 fields")),
     {| scheduler := []; tasks := {[ "task_1" := setName "renamed" backupTask ]} |}).
Proof.
  etrans.
  - apply (handleUpdateTask_bad_cron_keeps_rename fiveFields onlyBackup
             "task_1" "renamed" "every night" backupTask
             (ErrNew "expected exactly 5 fields")); reflexivity.
  - reflexivity.
Defined.


(** *** What every action keeps *)

Section Tidy.
Context {C : Type}.
Variable cron : CronLib C.
Implicit Types p : SchedulerPlugin C.

Lemma wrap64_shift (z : Z) : exists k, wrap64 z = z + k * 2^64.
Proof.
  exists (- ((z + 2^63) / 2^64)). unfold wrap64.
  rewrite Z.mod_eq by (change (2 ^ 64) with 18446744073709551616; lia). ring.
Qed.

Lemma tidy_alter p (c : C) (f : TaskInfo -> TaskInfo) (id : string) :
  (forall t, ok id t -> ok id (f t)) ->
  tidy p -> tidy {| scheduler := c; tasks := alter f id (tasks p) |}.
Proof.
  intros Hf Hp k t. cbn. rewrite lookup_alter. case_decide as Hk; [subst k|apply Hp].
  destruct (tasks p !! id) as [t0|] eqn:Hlook; cbn; [|done].
  intros [= <-]. apply Hf. by apply Hp.
Qed.

Lemma tidy_insert p (c : C) (t : TaskInfo) (id : string) :
  ok id t -> tidy p -> tidy {| scheduler := c; tasks := <[id := t]> (tasks p) |}.
Proof.
  intros Ht Hp k t'. cbn. rewrite lookup_insert. case_decide as Hk; [subst k|apply Hp].
  by intros [= <-].
Qed.

Lemma tidy_delete p (c : C) (id : string) :
  tidy p -> tidy {| scheduler := c; tasks := delete id (tasks p) |}.
Proof.
  intros Hp k t. cbn. rewrite lookup_delete. case_decide; [done | apply Hp].
Qed.

Lemma tidy_scheduler p (c : C) :
  tidy p -> tidy {| scheduler := c; tasks := tasks p |}.
Proof. intros Hp k t. apply Hp. Qed.

Lemma tidy_addToScheduler p (id : string) :
  tidy p ->
  (forall t, tasks p !! id = Some t -> Enabled t = true) ->
  tidy (addToScheduler cron id p).2.
Proof.
  intros Hp Hon. unfold addToScheduler.
  destruct (tasks p !! id) as [t|] eqn:Hlook; [|exact Hp].
  destruct (AddFunc cron (scheduler p) (CronExpr t) id) as [e|[entryID c]]; [exact Hp|].
  cbn. apply tidy_insert; [|exact Hp].
  destruct (Hp id t Hlook) as (Hid & _ & Hcount).
  repeat split; cbn; [exact Hid | | exact Hcount].
  rewrite (Hon t eq_refl). discriminate.
Qed.

Lemma ok_assign (args : gmap string Value) (key id : string)
    (set : string -> TaskInfo -> TaskInfo) :
  (forall x t, ok id t -> ok id (set x t)) ->
  forall t, ok id t -> ok id (assignIfString args key set t).
Proof.
  intros Hset t Ht. unfold assignIfString. destruct (stringArg args key); [by apply Hset | exact Ht].
Qed.

Lemma ok_setName id x t : ok id t -> ok id (setName x t).
Proof. by intros (? & ? & ?). Qed.
Lemma ok_setDescription id x t : ok id t -> ok id (setDescription x t).
Proof. by intros (? & ? & ?). Qed.
Lemma ok_setCronExpr id x t : ok id t -> ok id (setCronExpr x t).
Proof. by intros (? & ? & ?). Qed.
Lemma ok_setCommand id x t : ok id t -> ok id (setCommand x t).
Proof. by intros (? & ? & ?). Qed.
Lemma ok_setType id x t : ok id t -> ok id (setType x t).
Proof. by intros (? & ? & ?). Qed.
Lemma ok_setArgs id x t : ok id t -> ok id (setArgs x t).
Proof. by intros (? & ? & ?). Qed.

Lemma ok_enabled id t : ok id t -> ok id (enabled t).
Proof. intros (? & ? & ?). by repeat split. Qed.

Lemma ok_disabled id t : ok id t -> ok id (disabled t).
Proof. intros (? & ? & ?). by repeat split. Qed.

Lemma ok_newTask id name description cronExpr command taskType on :
  ok id (newTask id name description cronExpr command taskType on).
Proof. by repeat split. Qed.

Lemma ok_ran id start b result next t : ok id t -> ok id (ran start b result next t).
Proof.
  intros (Hid & Hoff & Hcount). repeat split; cbn; [exact Hid | exact Hoff |].
  destruct (wrap64_shift (RunCount t + 1)) as [k1 ->].
  destruct b.
  - destruct (wrap64_shift (SuccessCount t + 1)) as [k2 ->].
    replace (RunCount t + 1 + k1 * 2 ^ 64 - (SuccessCount t + 1 + k2 * 2 ^ 64)
             - FailureCount t)
      with (RunCount t - SuccessCount t - FailureCount t + (k1 - k2) * 2 ^ 64) by ring.
    by rewrite Z_mod_plus_full.
  - destruct (wrap64_shift (FailureCount t + 1)) as [k2 ->].
    replace (RunCount t + 1 + k1 * 2 ^ 64 - SuccessCount t
             - (FailureCount t + 1 + k2 * 2 ^ 64))
      with (RunCount t - SuccessCount t - FailureCount t + (k1 - k2) * 2 ^ 64) by ring.
    by rewrite Z_mod_plus_full.
Qed.

Lemma keepsT_ret {A} (a : A) : keepsT (C := C) (St.ret a).
Proof. by intros p Hp. Qed.

Lemma keepsT_bind {A B} (c : St.M (SchedulerPlugin C) A)
    (k : A -> St.M (SchedulerPlugin C) B) :
  keepsT c -> (forall a, keepsT (k a)) -> keepsT (St.bind c k).
Proof.
  intros Hc Hk p Hp. unfold St.bind. specialize (Hc p Hp).
  destruct (c p) as [a p']. by apply Hk.
Qed.

(** After [St.get] the continuation runs on the state it was handed. *)
Lemma keepsT_get {B} (k : SchedulerPlugin C -> St.M (SchedulerPlugin C) B) :
  (forall p, tidy p -> tidy (k p p).2) -> keepsT (St.bind St.get k).
Proof. intros Hk p Hp. by apply Hk. Qed.

Lemma keepsT_updateTask (id : string) (f : TaskInfo -> TaskInfo) :
  (forall t, ok id t -> ok id (f t)) -> keepsT (C := C) (updateTask id f).
Proof. intros Hf p Hp. by apply tidy_alter. Qed.

Lemma keepsT_removeEntry (entryID : Z) : keepsT (removeEntry cron entryID).
Proof. intros p Hp. by apply tidy_scheduler. Qed.

(** Scheduling the task stored under [id] right after a step that
    leaves it enabled. *)
Lemma tidy_then_schedule {A B} (c : St.M (SchedulerPlugin C) A)
    (k : option error -> St.M (SchedulerPlugin C) B) (id : string) p :
  tidy (c p).2 ->
  (forall t, tasks (c p).2 !! id = Some t -> Enabled t = true) ->
  (forall e, keepsT (k e)) ->
  tidy (St.bind c (fun _ => St.bind (addToScheduler cron id) k) p).2.
Proof.
  intros Hc Hon Hk. unfold St.bind. destruct (c p) as [a p1]; cbn in *.
  pose proof (tidy_addToScheduler p1 id Hc Hon) as Hadd.
  destruct (addToScheduler cron id p1) as [e p2]. by apply Hk.
Qed.

Ltac keepsT_step :=
  lazymatch goal with
  | |- keepsT (St.bind St.get _) => fail
  | _ => idtac
  end;
  first
    [ apply keepsT_ret
    | apply keepsT_removeEntry
    | apply keepsT_updateTask; first
        [ apply ok_assign; first [ apply ok_setName | apply ok_setDescription
                                 | apply ok_setCommand | apply ok_setType ]
        | intros ?; first [ apply ok_setCronExpr | apply ok_enabled | apply ok_disabled ] ]
    | apply keepsT_bind; [|intros ?]
    | match goal with
      | |- keepsT (match ?x with _ => _ end) => destruct x eqn:?
      end ].

Lemma tidy_handleAddTask (taskID : string) (args : gmap string Value) :
  keepsT (handleAddTask cron taskID args).
Proof.
  unfold handleAddTask.
  destruct (stringArg args "name") as [name|]; [|apply keepsT_ret].
  destruct (stringArg args "cron_expr") as [cronExpr|]; [|apply keepsT_ret].
  destruct (stringArg args "command") as [command|]; [|apply keepsT_ret].
  cbv zeta. destruct (ParseStandard cron cronExpr); [apply keepsT_ret|].
  set (task := match args !! "args" with Some (VList l) => _ | _ => _ end).
  assert (Hok : ok taskID task).
  { subst task. destruct (args !! "args") as [[]|]; try apply ok_setArgs; apply ok_newTask. }
  destruct (Enabled task) eqn:Hon.
  - intros p Hp. apply tidy_then_schedule.
    + cbn. by apply tidy_insert.
    + intros t. cbn. rewrite lookup_insert_eq. by intros [= <-].
    + intros e. repeat keepsT_step.
  - apply keepsT_bind; [|intros; apply keepsT_ret].
    intros p Hp. cbn. by apply tidy_insert.
Qed.

Lemma tidy_handleUpdateTask (args : gmap string Value) :
  keepsT (handleUpdateTask cron args).
Proof.
  unfold handleUpdateTask.
  destruct (stringArg args "id") as [id|]; [|apply keepsT_ret].
  apply keepsT_get. intros p Hp.
  destruct (tasks p !! id) as [task0|]; [|exact Hp].
  revert p Hp. change (keepsT ?c) with (forall p, tidy p -> tidy (c p).2).
  repeat keepsT_step.
  all: apply keepsT_get; intros q Hq.
  all: destruct (tasks q !! id) as [task|] eqn:Hlook; [|exact Hq].
  all: destruct (Enabled task) eqn:Hon; cbn [andb]; [|exact Hq].
  all: destruct (negb (EntryID task =? 0)); [|exact Hq].
  all: apply tidy_then_schedule;
    [ by apply tidy_scheduler
    | cbn; intros t; rewrite Hlook; by intros [= <-]
    | intros e; repeat keepsT_step ].
Qed.

Lemma tidy_handleRemoveTask (args : gmap string Value) :
  keepsT (handleRemoveTask cron args).
Proof.
  unfold handleRemoveTask. repeat keepsT_step.
  apply keepsT_get. intros p Hp.
  destruct (tasks p !! s) as [task|]; [|exact Hp].
  destruct (EntryID task =? 0); cbn; by apply tidy_delete.
Qed.

Lemma tidy_handleEnableTask (args : gmap string Value) :
  keepsT (handleEnableTask cron args).
Proof.
  unfold handleEnableTask. repeat keepsT_step.
  apply keepsT_get. intros p Hp.
  destruct (tasks p !! s) as [task|] eqn:Hlook; [|exact Hp].
  destruct (Enabled task); [exact Hp|].
  apply tidy_then_schedule.
  - cbn. apply tidy_alter; [|exact Hp]. intros t. apply ok_enabled.
  - cbn. intros t. rewrite lookup_alter, decide_True by reflexivity.
    rewrite Hlook. by intros [= <-].
  - intros e. repeat keepsT_step.
Qed.

Lemma tidy_handleDisableTask (args : gmap string Value) :
  keepsT (handleDisableTask cron args).
Proof.
  unfold handleDisableTask. repeat keepsT_step.
  apply keepsT_get. intros p Hp.
  destruct (tasks p !! s) as [task|]; [|exact Hp].
  destruct (Enabled task); [|exact Hp].
  destruct (EntryID task =? 0); cbn; (apply tidy_alter; [intros t; apply ok_disabled|]);
    exact Hp.
Qed.

Lemma tidy_HandleCommand (taskID command : string) (args : gmap string Value) :
  keepsT (HandleCommand cron taskID command args).
Proof.
  unfold HandleCommand. repeat case_decide.
  - apply tidy_handleAddTask.
  - apply keepsT_bind; [apply tidy_handleUpdateTask | intros; apply keepsT_ret].
  - apply tidy_handleRemoveTask.
  - apply tidy_handleEnableTask.
  - apply tidy_handleDisableTask.
  - unfold handleRunTask. repeat keepsT_step.
    apply keepsT_get. intros p Hp. by destruct (tasks p !! s).
  - by intros p Hp.
  - unfold handleGetTask. repeat keepsT_step.
    apply keepsT_get. intros p Hp. by destruct (tasks p !! s).
  - unfold handleGetTaskStatus. repeat keepsT_step.
    apply keepsT_get. intros p Hp. by destruct (tasks p !! s).
  - by intros p Hp.
  - apply keepsT_ret.
Qed.

Lemma tidy_executeTask (id : string) (start stop : Z) (outcome : error + string) :
  keepsT (executeTask cron id start stop outcome).
Proof.
  intros p Hp. unfold executeTask.
  destruct (tasks p !! id) as [task|] eqn:Hlook; [|exact Hp].
  cbn. apply tidy_insert; [|exact Hp]. apply ok_ran. by apply Hp.
Qed.

Lemma tidy_restoreEnabledTasks (ids : list string) :
  keepsT (restoreEnabledTasks cron ids).
Proof.
  induction ids as [|id ids IH]; cbn [restoreEnabledTasks]; [apply keepsT_ret|].
  apply keepsT_get. intros p Hp.
  destruct (tasks p !! id) as [task|] eqn:Hlook.
  - destruct (Enabled task) eqn:Hon.
    + unfold St.bind at 1.
      pose proof (tidy_addToScheduler p id Hp) as Hadd.
      unfold St.bind at 1. destruct (addToScheduler cron id p) as [e p1]. cbn.
      apply IH. apply Hadd. intros t. rewrite Hlook. by intros [= <-].
    + by apply IH.
  - by apply IH.
Qed.

(** X25. Whatever commands arrive, whatever tasks run and whenever entries
    are restored, between these actions: every task is stored under
    its own id, a disabled task holds no scheduler entry, and every run
    of a task has been counted as one success or one failure (the
    three counters being 64-bit). *)
Theorem reachable_tidy (p : SchedulerPlugin C) : reachable cron p -> tidy p.
Proof.
  induction 1 as [c | a p Hp IH].
  - intros id t. cbn. by rewrite lookup_empty.
  - destruct a; cbn [act].
    + by apply tidy_HandleCommand.
    + by apply tidy_executeTask.
    + by apply tidy_restoreEnabledTasks.
Qed.
End Tidy.

Lemma reachable_tidy_witness :
  tidy (act fiveFields (ACommand "task_9" "add_task" addReport)
          {| scheduler := []; tasks := ∅ |}).
Proof.
  apply (reachable_tidy fiveFields). apply reachable_act. apply reachable_new.
Defined.

(** *** Adding, removing, running *)

Section Handlers.
Context {C : Type}.
Variable cron : CronLib C.
Implicit Types p : SchedulerPlugin C.

(** X26. [add_task] checks before it stores: a request without a name, a
    cron expression or a command (as strings), or with an expression
    that [ParseStandard] rejects, is answered with an error and leaves
    the tasks and the scheduler as they were. *)
Theorem handleAddTask_rejects (taskID : string) (args : gmap string Value) p :
  stringArg args "name" = None
  \/ stringArg args "cron_expr" = None
  \/ stringArg args "command" = None
  \/ (exists expr e, stringArg args "cron_expr" = Some expr
                     /\ ParseStandard cron expr = Some e) ->
  exists e, handleAddTask cron taskID args p = ((ReplyValue VNil, Some e), p).
Proof.
  unfold handleAddTask. intros [Hn | [Hc | [Hm | (expr & e & Hc & Hbad)]]].
  - rewrite Hn. eauto.
  - destruct (stringArg args "name"); [|eauto]. rewrite Hc. eauto.
  - destruct (stringArg args "name"); [|eauto].
    destruct (stringArg args "cron_expr"); [|eauto]. rewrite Hm. eauto.
  - destruct (stringArg args "name"); [|eauto]. rewrite Hc.
    destruct (stringArg args "command"); [|eauto]. cbv zeta. rewrite Hbad. eauto.
Qed.

(** X27. A valid [add_task] that does not ask for the task to be enabled:
    the task is stored under the id it was given, disabled, with status
    ["active"], type ["shell"] when the request names no type, zero
    counters and no scheduler entry; the scheduler and the other tasks
    are untouched, and [get_task] on that id returns it. *)
Theorem handleAddTask_disabled (taskID name expr command : string)
    (args : gmap string Value) p :
  stringArg args "name" = Some name ->
  stringArg args "cron_expr" = Some expr ->
  stringArg args "command" = Some command ->
  ParseStandard cron expr = None ->
  boolArg args "enabled" = false ->
  exists reply t,
    handleAddTask cron taskID args p
    = ((reply, None), {| scheduler := scheduler p; tasks := <[taskID := t]> (tasks p) |})
    /\ handleGetTask {[ "id" := VString taskID ]}
         {| scheduler := scheduler p; tasks := <[taskID := t]> (tasks p) |}
       = ((ReplyTask t, None),
          {| scheduler := scheduler p; tasks := <[taskID := t]> (tasks p) |})
    /\ ID t = taskID /\ Name t = name /\ CronExpr t = expr /\ Command t = command
    /\ Enabled t = false /\ Status t = "active" /\ EntryID t = 0
    /\ RunCount t = 0 /\ SuccessCount t = 0 /\ FailureCount t = 0
    /\ (stringArg args "type" = None -> Type_ t = "shell").
Proof.
  intros Hn Hc Hm Hok Hoff. unfold handleAddTask. rewrite Hn, Hc, Hm. cbv zeta.
  rewrite Hok, Hoff.
  assert (Hget : forall t,
            handleGetTask {[ "id" := VString taskID ]}
              {| scheduler := scheduler p; tasks := <[taskID := t]> (tasks p) |}
            = ((ReplyTask t, None),
               {| scheduler := scheduler p; tasks := <[taskID := t]> (tasks p) |})).
  { intros t. unfold handleGetTask, stringArg. rewrite lookup_singleton_eq.
    unfold St.bind, St.get, St.ret. cbn. by rewrite lookup_insert_eq. }
  destruct (args !! "args") as [[]|]; cbn;
    unfold St.bind, St.modify, St.ret; cbn;
    eexists; eexists; (split; [reflexivity|]); (split; [apply Hget|]); cbn;
    repeat split; intros Hty; by rewrite Hty.
Qed.

(** X28. [remove_task]: an unknown id is answered with "task not found" and
    nothing changes. A known id is removed from the table together with
    its scheduler entry, if it holds one; the other tasks stay, and
    [get_task] on the id then answers "task not found". *)
Theorem handleRemoveTask_spec (id : string) p :
  (tasks p !! id = None ->
     handleRemoveTask cron {[ "id" := VString id ]} p
     = ((ReplyValue VNil, Some (ErrNew "task not found")), p))
  /\ (forall t, tasks p !! id = Some t ->
       exists p',
         handleRemoveTask cron {[ "id" := VString id ]} p
         = ((message id "Task removed successfully", None), p')
         /\ tasks p' = delete id (tasks p)
         /\ scheduler p' = (if EntryID t =? 0 then scheduler p
                            else Remove cron (scheduler p) (EntryID t))
         /\ handleGetTask {[ "id" := VString id ]} p'
            = ((ReplyValue VNil, Some (ErrNew "task not found")), p')).
Proof.
  unfold handleRemoveTask, handleGetTask, stringArg. rewrite !lookup_singleton_eq.
  unfold St.bind, St.get, St.ret, St.modify, removeEntry. cbn. split.
  - intros Hnone. by rewrite Hnone.
  - intros t Hin. rewrite Hin.
    destruct (EntryID t =? 0); cbn; eexists; (split; [reflexivity|]); cbn;
      rewrite lookup_delete_eq; by repeat split.
Qed.

(** X29. One run of a stored task whose counters are not at the top of
    their range: the run count goes up by one and so does exactly one
    of the success and failure counts, according to what the agent's
    [ExecuteCommand] returned; the result is kept as the last result;
    two notices go upstream, [task_started] and then [task_completed]
    or [task_failed]; the other tasks and the scheduler are untouched. *)
Theorem executeTask_counts (id : string) (start stop : Z) (outcome : error + string)
    (t : TaskInfo) p :
  tasks p !! id = Some t ->
  minInt64 <= RunCount t < maxInt64 ->
  minInt64 <= SuccessCount t < maxInt64 ->
  minInt64 <= FailureCount t < maxInt64 ->
  exists t',
    (executeTask cron id start stop outcome p).2
    = {| scheduler := scheduler p; tasks := <[id := t']> (tasks p) |}
    /\ RunCount t' = RunCount t + 1
    /\ SuccessCount t' = SuccessCount t + (if outcome is inr _ then 1 else 0)
    /\ FailureCount t' = FailureCount t + (if outcome is inl _ then 1 else 0)
    /\ (RSuccess <$> LastResult t') = Some (if outcome is inr _ then true else false)
    /\ LastRun t' = start
    /\ eventType <$> (executeTask cron id start stop outcome p).1
       = ["task_started"; if outcome is inr _ then "task_completed" else "task_failed"].
Proof.
  intros Hin Hr Hs Hf. unfold executeTask. rewrite Hin. cbn.
  assert (Hwrap : forall x, minInt64 <= x < maxInt64 -> wrap64 (x + 1) = x + 1).
  { intros x Hx. unfold wrap64, minInt64, maxInt64 in *.
    change (2 ^ 63) with 9223372036854775808 in *.
    change (2 ^ 64) with 18446744073709551616.
    rewrite Z.mod_small by lia. lia. }
  eexists. split; [reflexivity|]. cbn.
  destruct outcome as [e|output]; cbn; rewrite ?Hwrap by assumption;
    repeat split; lia.
Qed.
End Handlers.

Lemma handleAddTask_rejects_witness :
  exists e, handleAddTask fiveFields "task_9"
              {[ "name" := VString "report"; "cron_expr" := VString "at dawn";
                 "command" := VString "report.sh" ]} onlyBackup
            = ((ReplyValue VNil, Some e), onlyBackup).
Proof.
  apply (handleAddTask_rejects fiveFields). right. right. right.
  exists "at dawn", (ErrNew "expected exactly 5 fields"). split; reflexivity.
Defined.

Lemma handleAddTask_disabled_witness :
  exists reply t,
    handleAddTask fiveFields "task_9" addReport onlyBackup
    = ((reply, None),
       {| scheduler := scheduler onlyBackup; tasks := <["task_9" := t]> (tasks onlyBackup) |})
    /\ Name t = "report" /\ Enabled t = false /\ EntryID t = 0.
Proof.
  destruct (handleAddTask_disabled fiveFields "task_9" "report" "0 6 * * 1" "report.sh"
              addReport onlyBackup)
    as (reply & t & Hadd & _ & _ & Hname & _ & _ & Hoff & _ & Hentry & _);
    try reflexivity.
  exists reply, t. by repeat split.
Defined.

Lemma handleRemoveTask_spec_witness :
  exists p',
    handleRemoveTask fiveFields {[ "id" := VString "task_2" ]} onlySync
    = ((message "task_2" "Task removed successfully", None), p')
    /\ tasks p' = delete "task_2" (tasks onlySync)
    /\ scheduler p' = []
    /\ handleGetTask {[ "id" := VString "task_2" ]} p'
       = ((ReplyValue VNil, Some (ErrNew "task not found")), p').
Proof.
  destruct (handleRemoveTask_spec fiveFields "task_2" onlySync) as [_ Hknown].
  apply (Hknown syncTask). reflexivity.
Defined.

Lemma executeTask_counts_witness :
  exists t',
    (executeTask fiveFields "task_2" 10 25 (inl (ErrNew "exit status 1")) onlySync).2
    = {| scheduler := scheduler onlySync; tasks := <["task_2" := t']> (tasks onlySync) |}
    /\ RunCount t' = 5 /\ SuccessCount t' = 3 /\ FailureCount t' = 2.
Proof.
  destruct (executeTask_counts fiveFields "task_2" 10 25 (inl (ErrNew "exit status 1"))
              syncTask onlySync)
    as (t' & Hrun & Hr & Hs & Hf & _);
    [ reflexivity | vm_compute; split; [discriminate | reflexivity] ..
    | exists t'; by repeat split ].
Defined.
End SchedulerProps.

Module HeartbeatProps.
Import Heartbeat.

(** X23. With an interval of zero or less the heartbeat always answers
    healthy and is not changed by the question, even after [Stop].
    With a positive interval an unhealthy answer sticks: once
    [IsHealthy] has said no, it says no at every later reading of the
    clock, until the next [Beat]. *)
Theorem IsHealthy_latches (h : Heartbeat) (now : Z) :
  (interval h <= 0 -> IsHealthy now h = (true, h) /\ IsHealthy now (Stop h) = (true, Stop h))
  /\ (0 < interval h -> (IsHealthy now h).1 = false ->
      forall now', (IsHealthy now' (IsHealthy now h).2).1 = false).
Proof.
  unfold IsHealthy. split.
  - intros Hle. cbn. destruct (Z.leb_spec (interval h) 0); [by split | lia].
  - intros Hpos. destruct (Z.leb_spec (interval h) 0); [lia|]. cbn.
    destruct (allowance h <? StateStore.Since now (lastBeat h)) eqn:Hlate; cbn.
    + intros _ now'. destruct (Z.leb_spec (interval h) 0); [lia|]. cbn.
      match goal with |- context [if ?b then _ else _] => destruct b end; reflexivity.
    + intros Hsick now'. destruct (Z.leb_spec (interval h) 0); [lia|]. cbn.
      destruct (allowance h <? StateStore.Since now' (lastBeat h)); cbn; [reflexivity|].
      exact Hsick.
Qed.

Lemma IsHealthy_latches_witness :
  (IsHealthy 500 (IsHealthy 100 (Stop (New 30 0))).2).1 = false.
Proof.
  apply (IsHealthy_latches (Stop (New 30 0)) 100); [reflexivity | reflexivity].
Defined.

Lemma allowance_seconds (h : Heartbeat) :
  0 < interval h <= 4611686018 -> allowance h = 2 * interval h * Second.
Proof.
  intros Hi. unfold allowance, wrap64, Second.
  change (2 ^ 63) with 9223372036854775808.
  change (2 ^ 64) with 18446744073709551616.
  rewrite (Z.mod_small (interval h * 2 + _)) by lia.
  rewrite Z.mod_small by lia. lia.
Qed.

(** X24. After a [Beat] at time [t], with an interval between 1 and
    4611686018 seconds, the heartbeat is healthy exactly as long as the
    clock is no more than twice the interval past [t]. *)
Theorem Beat_revives (h : Heartbeat) (t now : Z) :
  0 < interval h <= 4611686018 ->
  (IsHealthy now (Beat t h)).1 = true <-> now - t <= 2 * interval h * Second.
Proof.
  intros Hi. unfold IsHealthy. cbn.
  destruct (Z.leb_spec (interval h) 0); [lia|].
  assert (Hallow : allowance (Beat t h) = 2 * interval h * Second)
    by (apply (allowance_seconds (Beat t h)); exact Hi).
  rewrite Hallow.
  assert (Hsat : 2 * interval h * Second < StateStore.Since now t
                 <-> 2 * interval h * Second < now - t).
  { unfold StateStore.Since, StateStore.Sub, maxInt64, minInt64, Second in *.
    change (2 ^ 63) with 9223372036854775808. lia. }
  destruct (Z.ltb_spec (2 * interval h * Second) (StateStore.Since now t)); cbn.
  - split; [discriminate | intros; lia].
  - split; [intros _; lia | reflexivity].
Qed.

Lemma Beat_revives_witness :
  (IsHealthy (50 * Second) (Beat (10 * Second) (Stop (New 30 0)))).1 = true.
Proof.
  apply (Beat_revives (Stop (New 30 0)) (10 * Second) (50 * Second));
    [vm_compute; split; [reflexivity | discriminate] | vm_compute; discriminate].
Defined.

End HeartbeatProps.
